(** * Vision navigation front-end (src/App.tsx): zone classifier, navigation
    decision engine and the processing scheduler of the [App] component.

    Numbers.  The zone classifier is modelled twice.  In [Module Double] a
    JavaScript [number] is an IEEE 754 binary64 [float] and [+], [*], [/],
    [<], [<=] and [==] are the rounded operations and the comparisons of the
    language; what is said about the zone boundaries is proved there.  In the
    decision engine, the scheduler and the overlay a [number] is an exact
    rational [Q]: these parts use of the classifier that an object is in one
    zone list and in no other, and classify only scenario objects whose
    centres are far from a threshold; the coordinates the overlay draws at
    are exact there, where the code rounds.

    Strings are [string]; [toLowerCase] is modelled on the ASCII letters and
    [trim] on the ASCII white space.

    React.  The component state is the record [State]; one event handler (or
    one continuation after an [await]) runs to completion and its [setX] calls
    are applied in order to the current state.  A function created during a
    render reads the state variables of that render: such a captured render
    is passed explicitly as the [closure] argument.  [speak] and the canvas
    drawing only drive the speech synthesiser and the canvas, never the
    component state, and are left out; so are the state variables no modelled
    handler reads or writes ([cameraIndex], [selectedMode], [serverStatus],
    [showDirections], [showBoundingBoxes]).  A display refresh is one event:
    the frame fetch and the load of the image are not split, so a frame fetch
    that is in flight when the camera stops, and in the code still advances
    [frameCount] when it completes, has no event of its own.

    [drawDirectionOverlay] is modelled by the list of drawing calls it makes
    on the 2D context; the width the browser measures for a text and the
    digits [toFixed] prints are parameters.  [parseGuidance] returns an
    option, [None] standing for a TypeError.

    Answers of the backend are well typed: a key that is present holds a
    value of the type the interfaces declare, so no handler throws half way
    through its assignments. *)

From Stdlib Require Import List String Ascii Bool ZArith QArith Lqa Lia PeanoNat.
From Stdlib Require Import Floats.
Import ListNotations.
Local Open Scope string_scope.

(** ** JavaScript helpers *)

Module Js.

Definition lower_ascii (c : ascii) : ascii :=
  let n := nat_of_ascii c in
  if ((65 <=? n) && (n <=? 90))%nat then ascii_of_nat (n + 32) else c.

(** [s.toLowerCase()] on ASCII letters. *)
Fixpoint toLowerCase (s : string) : string :=
  match s with
  | EmptyString => EmptyString
  | String c rest => String (lower_ascii c) (toLowerCase rest)
  end.

(** [arr.includes(x)] on an array of strings. *)
Definition includes (arr : list string) (x : string) : bool :=
  existsb (String.eqb x) arr.

(** [arr.join(sep)]. *)
Definition join (sep : string) (arr : list string) : string :=
  String.concat sep arr.

(** [arr.slice(0, n)]. *)
Definition slice0 {A} (n : nat) (arr : list A) : list A := firstn n arr.

(** Truthiness of a possibly missing string: [undefined] and [''] are
    falsy. *)
Definition truthy_string (s : option string) : bool :=
  match s with
  | Some EmptyString => false
  | Some _ => true
  | None => false
  end.

(** Truthiness of a possibly missing object or array. *)
Definition truthy_obj {A} (o : option A) : bool :=
  match o with Some _ => true | None => false end.

Definition is_space (c : ascii) : bool :=
  let n := nat_of_ascii c in
  ((n =? 32) || (n =? 9) || (n =? 10) || (n =? 11) || (n =? 12) || (n =? 13))%nat.

Fixpoint trimStart (s : string) : string :=
  match s with
  | EmptyString => EmptyString
  | String c rest => if is_space c then trimStart rest else s
  end.

Fixpoint rev_string (acc s : string) : string :=
  match s with
  | EmptyString => acc
  | String c rest => rev_string (String c acc) rest
  end.

(** [s.trim()] on ASCII white space. *)
Definition trim (s : string) : string :=
  rev_string "" (trimStart (rev_string "" (trimStart s))).

(** [s.startsWith(p)]. *)
Definition startsWith (s p : string) : bool := String.prefix p s.

(** [x < y] and [x <= y] on numbers. *)
Definition lt (x y : Q) : bool := negb (Qle_bool y x).
Definition le (x y : Q) : bool := Qle_bool x y.

(** [x || d] on a possibly missing number: [undefined] and [0] are falsy. *)
Definition num_or (x : option Q) (d : Q) : Q :=
  match x with
  | Some v => if Qeq_bool v 0 then d else v
  | None => d
  end.

End Js.

(** ** Data model (the interfaces of App.tsx) *)

Record DetectedObject := {
  label : string;
  confidence : Q;
  bounding_box : Q * Q * Q * Q
}.

Record AttentionStats := { mean : Q; max : Q; std : Q }.

(** The JSON object stored as the processing result.  It is taken from a
    parsed response body without validation, so every key may be missing
    ([None]); the image payloads may sit inside the result object too. *)
Record ProcessingResult := {
  caption : option string;
  detected_objects : option (list DetectedObject);
  guidance : option string;
  model_used : option string;
  fusion_enabled : option bool;
  llm_description : option string;
  attention_stats : option AttentionStats;
  annotated_image_base64 : option string;
  annotated_image : option string
}.

Inductive Direction := dir_left | dir_right | dir_forward | dir_stop.
Inductive Priority := safe | caution | danger.

Record NavigationInstruction := {
  direction : Direction;
  priority : Priority;
  message : string;
  reason : string
}.

Inductive Zone := zone_left | zone_front | zone_right.

Definition Zone_eqb (a b : Zone) : bool :=
  match a, b with
  | zone_left, zone_left | zone_front, zone_front | zone_right, zone_right => true
  | _, _ => false
  end.

(** ** Zone classifier: [getObjectsInZone] *)

Definition centerX (obj : DetectedObject) : Q :=
  let '(x1, _, x2, _) := bounding_box obj in (x1 + x2) / 2.

(** The callback given to [filter] in [getObjectsInZone]. *)
Definition inZone (zone : Zone) (width : Q) (obj : DetectedObject) : bool :=
  let c := centerX obj in
  if Zone_eqb zone zone_right && Js.lt c (width / 3) then true
  else if Zone_eqb zone zone_left && Js.lt (2 * width / 3) c then true
  else if Zone_eqb zone zone_front && Js.le (width / 3) c && Js.le c (2 * width / 3)
       then true
  else false.

(** [imgRef.current?.naturalWidth || 640]. *)
Definition zoneWidth (naturalWidth : option Q) : Q := Js.num_or naturalWidth 640.

(** [getObjectsInZone(zone)].  It reads the state variable [result] of the
    render it was created in and the image element behind [imgRef]. *)
Definition getObjectsInZone (result : option ProcessingResult)
    (naturalWidth : option Q) (zone : Zone) : list DetectedObject :=
  match result with
  | None => []
  | Some r =>
      match detected_objects r with
      | None => []
      | Some objs =>
          let width := zoneWidth naturalWidth in
          filter (inZone zone width) objs
      end
  end.

(** ** The zone classifier on binary64 numbers

    The zone tests of [getObjectsInZone] once more, on the numbers JavaScript
    computes with: [float] is the IEEE 754 binary64 format, [+], [*] and [/]
    round to nearest even and [<?], [<=?] and [=?] are the comparisons of
    JavaScript's [<], [<=] and [==] on numbers. *)

Module Double.
Local Open Scope float_scope.

Record DetectedObject := {
  label : string;
  confidence : float;
  bounding_box : float * float * float * float
}.

(** A number is falsy when it is [NaN], [0] or [-0]. *)
Definition truthy (x : float) : bool := negb (is_nan x || is_zero x).

(** [x || d] on a number that may be missing. *)
Definition num_or (x : option float) (d : float) : float :=
  match x with
  | Some v => if truthy v then v else d
  | None => d
  end.

Definition centerX (obj : DetectedObject) : float :=
  let '(x1, _, x2, _) := bounding_box obj in (x1 + x2) / 2.

(** The callback given to [filter] in [getObjectsInZone]. *)
Definition inZone (zone : Zone) (width : float) (obj : DetectedObject) : bool :=
  let c := centerX obj in
  if Zone_eqb zone zone_right && (c <? width / 3) then true
  else if Zone_eqb zone zone_left && (2 * width / 3 <? c) then true
  else if Zone_eqb zone zone_front && (width / 3 <=? c) && (c <=? 2 * width / 3)
       then true
  else false.

(** [imgRef.current?.naturalWidth || 640]. *)
Definition zoneWidth (naturalWidth : option float) : float :=
  num_or naturalWidth 640.

(** The rational number a finite double stands for. *)
Definition value (x : float) : option Q :=
  match Prim2SF x with
  | S754_zero _ => Some 0%Q
  | S754_finite s m e =>
      Some (Qred (match e with
                  | Z0 => Qmake (cond_Zopp s (Zpos m)) 1
                  | Zpos p => Qmake (cond_Zopp s (Zpos m) * Z.pow_pos 2 p) 1
                  | Zneg p => Qmake (cond_Zopp s (Zpos m)) (Pos.pow 2 p)
                  end))
  | _ => None
  end.

(** The order of the doubles that are numbers, as an order on triples of
    integers: class (infinities, negatives, zeros, positives), then exponent,
    then mantissa. *)
Definition key (f : spec_float) : option (Z * Z * Z) :=
  match f with
  | S754_nan => None
  | S754_infinity true => Some (-2, 0, 0)%Z
  | S754_infinity false => Some (2, 0, 0)%Z
  | S754_zero _ => Some (0, 0, 0)%Z
  | S754_finite true m e => Some (-1, - e, Zneg m)%Z
  | S754_finite false m e => Some (1, e, Zpos m)%Z
  end.

Definition lex3 (a b : Z * Z * Z) : comparison :=
  let '(a1, a2, a3) := a in
  let '(b1, b2, b3) := b in
  match (a1 ?= b1)%Z with
  | Eq => match (a2 ?= b2)%Z with
          | Eq => (a3 ?= b3)%Z
          | c => c
          end
  | c => c
  end.

(** The double with the same mantissa and the next exponent: twice the
    number, or the infinity of its sign at the top of the range. *)
Definition bump (f : spec_float) : spec_float :=
  match f with
  | S754_finite s m e =>
      if (e + 1 <=? emax - prec)%Z then S754_finite s m (e + 1)
      else S754_infinity s
  | _ => f
  end.

(** A number (not [NaN]) of the given sign. *)
Definition signed (s : bool) (f : spec_float) : Prop :=
  match f with
  | S754_nan => False
  | S754_zero s' | S754_infinity s' | S754_finite s' _ _ => s' = s
  end.

(** The constants 1, 2 and 3. *)
Definition sf_one : spec_float := S754_finite false 4503599627370496 (-52).
Definition sf_two : spec_float := S754_finite false 4503599627370496 (-51).
Definition sf_three : spec_float := S754_finite false 6755399441055744 (-51).

End Double.

(** ** Navigation decision engine: [generateNavigationInstructions] *)

Definition dangerousObjects : list string :=
  ["person"; "car"; "truck"; "bicycle"; "motorcycle"; "chair"; "table";
   "bench"; "couch"; "bed"].

Definition isDangerous (obj : DetectedObject) : bool :=
  Js.includes dangerousObjects (Js.toLowerCase (label obj)).

Definition labels (objs : list DetectedObject) : string :=
  Js.join ", " (map label objs).

Definition is_empty {A} (l : list A) : bool :=
  match l with [] => true | _ => false end.

(** [generateNavigationInstructions(objects)].  The three zone lists come
    from [getObjectsInZone], hence from the captured [result], not from the
    argument [objects]; [objects] is used for the last reason string only. *)
Definition generateNavigationInstructions (result : option ProcessingResult)
    (naturalWidth : option Q) (objects : list DetectedObject)
    : NavigationInstruction :=
  let leftObjects := getObjectsInZone result naturalWidth zone_left in
  let frontObjects := getObjectsInZone result naturalWidth zone_front in
  let rightObjects := getObjectsInZone result naturalWidth zone_right in
  let leftDanger := filter isDangerous leftObjects in
  let frontDanger := filter isDangerous frontObjects in
  let rightDanger := filter isDangerous rightObjects in
  if negb (is_empty frontDanger) then
    if is_empty leftDanger then
      {| direction := dir_left; priority := caution;
         message := "Path blocked ahead. Move left.";
         reason := "Obstacle detected: " ++ labels frontDanger |}
    else if is_empty rightDanger then
      {| direction := dir_right; priority := caution;
         message := "Path blocked ahead. Move right.";
         reason := "Obstacle detected: " ++ labels frontDanger |}
    else
      {| direction := dir_stop; priority := danger;
         message := "Stop! Obstacles in all directions.";
         reason := "Multiple obstacles detected" |}
  else if is_empty leftObjects && is_empty rightObjects then
    {| direction := dir_forward; priority := safe;
       message := "Clear path ahead. Safe to proceed.";
       reason := "No obstacles detected" |}
  else if negb (is_empty leftDanger) && is_empty rightDanger then
    {| direction := dir_right; priority := caution;
       message := "Obstacle on left. Stay right.";
       reason := "Left side: " ++ labels leftDanger |}
  else if negb (is_empty rightDanger) && is_empty leftDanger then
    {| direction := dir_left; priority := caution;
       message := "Obstacle on right. Stay left.";
       reason := "Right side: " ++ labels rightDanger |}
  else
    {| direction := dir_forward; priority := caution;
       message := "Proceed with caution. Objects nearby.";
       reason := "Detected: " ++ labels (Js.slice0 3 objects) |}.

(** ** Component state and scheduler *)

Record State := {
  isCameraRunning : bool;
  isProcessing : bool;
  result : option ProcessingResult;
  error : string;
  frameCount : nat;
  autoProcess : bool;
  voiceEnabled : bool;
  annotatedImage : option string;
  navigationInstructions : option NavigationInstruction
}.

(** The [useState] initial values. *)
Definition initialState : State := {|
  isCameraRunning := false;
  isProcessing := false;
  result := None;
  error := "";
  frameCount := 0;
  autoProcess := false;
  voiceEnabled := false;
  annotatedImage := None;
  navigationInstructions := None
|}.

Definition setIsCameraRunning (v : bool) (s : State) : State :=
  {| isCameraRunning := v; isProcessing := isProcessing s; result := result s;
     error := error s; frameCount := frameCount s; autoProcess := autoProcess s;
     voiceEnabled := voiceEnabled s; annotatedImage := annotatedImage s;
     navigationInstructions := navigationInstructions s |}.

Definition setIsProcessing (v : bool) (s : State) : State :=
  {| isCameraRunning := isCameraRunning s; isProcessing := v; result := result s;
     error := error s; frameCount := frameCount s; autoProcess := autoProcess s;
     voiceEnabled := voiceEnabled s; annotatedImage := annotatedImage s;
     navigationInstructions := navigationInstructions s |}.

Definition setResult (v : option ProcessingResult) (s : State) : State :=
  {| isCameraRunning := isCameraRunning s; isProcessing := isProcessing s;
     result := v; error := error s; frameCount := frameCount s;
     autoProcess := autoProcess s; voiceEnabled := voiceEnabled s;
     annotatedImage := annotatedImage s;
     navigationInstructions := navigationInstructions s |}.

Definition setError (v : string) (s : State) : State :=
  {| isCameraRunning := isCameraRunning s; isProcessing := isProcessing s;
     result := result s; error := v; frameCount := frameCount s;
     autoProcess := autoProcess s; voiceEnabled := voiceEnabled s;
     annotatedImage := annotatedImage s;
     navigationInstructions := navigationInstructions s |}.

Definition setFrameCount (v : nat) (s : State) : State :=
  {| isCameraRunning := isCameraRunning s; isProcessing := isProcessing s;
     result := result s; error := error s; frameCount := v;
     autoProcess := autoProcess s; voiceEnabled := voiceEnabled s;
     annotatedImage := annotatedImage s;
     navigationInstructions := navigationInstructions s |}.

Definition setAutoProcess (v : bool) (s : State) : State :=
  {| isCameraRunning := isCameraRunning s; isProcessing := isProcessing s;
     result := result s; error := error s; frameCount := frameCount s;
     autoProcess := v; voiceEnabled := voiceEnabled s;
     annotatedImage := annotatedImage s;
     navigationInstructions := navigationInstructions s |}.

Definition setVoiceEnabled (v : bool) (s : State) : State :=
  {| isCameraRunning := isCameraRunning s; isProcessing := isProcessing s;
     result := result s; error := error s; frameCount := frameCount s;
     autoProcess := autoProcess s; voiceEnabled := v;
     annotatedImage := annotatedImage s;
     navigationInstructions := navigationInstructions s |}.

Definition setAnnotatedImage (v : option string) (s : State) : State :=
  {| isCameraRunning := isCameraRunning s; isProcessing := isProcessing s;
     result := result s; error := error s; frameCount := frameCount s;
     autoProcess := autoProcess s; voiceEnabled := voiceEnabled s;
     annotatedImage := v;
     navigationInstructions := navigationInstructions s |}.

Definition setNavigationInstructions (v : option NavigationInstruction)
    (s : State) : State :=
  {| isCameraRunning := isCameraRunning s; isProcessing := isProcessing s;
     result := result s; error := error s; frameCount := frameCount s;
     autoProcess := autoProcess s; voiceEnabled := voiceEnabled s;
     annotatedImage := annotatedImage s;
     navigationInstructions := v |}.

(** The parsed body of a 2xx answer of [/process_camera]: the top-level JSON
    object [data], whose own keys are in [body], and its [data] key. *)
Record ApiResponse := {
  data : option ProcessingResult;
  body : ProcessingResult
}.

(** How the awaited request of [processFrame] ends. *)
Inductive ProcessOutcome :=
| ResponseOk (d : ApiResponse)            (* response.ok *)
| ResponseNotOk (detail : option string)  (* non-2xx, [errorData.detail] *)
| Thrown (err : string).                  (* fetch or json() rejected *)

(** The component instance: the current state, the refs and what is
    suspended at an [await]. *)
Record World := {
  st : State;
  (* imgRef.current?.naturalWidth; None when no <img> is mounted *)
  naturalWidth : option Q;
  (* intervalRef: the display refresh timer and its local [count] *)
  frameTimer : option nat;
  (* processIntervalRef: the auto-process timer and the render whose
     [processFrame] its callback calls *)
  processTimer : option State;
  (* the [processFrame] calls suspended at their fetch, oldest first, each
     with the render it was called from *)
  pending : list State
}.

Definition initialWorld : World := {|
  st := initialState; naturalWidth := None; frameTimer := None;
  processTimer := None; pending := []
|}.

Definition withState (f : State -> State) (w : World) : World :=
  {| st := f (st w); naturalWidth := naturalWidth w; frameTimer := frameTimer w;
     processTimer := processTimer w; pending := pending w |}.

(** [processFrame], up to its [await fetch(...)]. *)
Definition processFrame_begin (closure : State) (w : World) : World :=
  if negb (isCameraRunning closure) then
    withState (setError "Please start the camera first") w
  else
    {| st := setError "" (setIsProcessing true (st w));
       naturalWidth := naturalWidth w; frameTimer := frameTimer w;
       processTimer := processTimer w;
       pending := pending w ++ [closure] |}.

(** The envelope normalisation of [processFrame]: [data.data], else the flat
    object when it has a caption and detected objects, else nothing. *)
Definition extractResult (d : ApiResponse) : option ProcessingResult :=
  match data d with
  | Some r => Some r
  | None =>
      if Js.truthy_string (caption (body d))
         && Js.truthy_obj (detected_objects (body d))
      then Some (body d)
      else None
  end.

(** The lookup of the annotated image, in the order of the code. *)
Definition findAnnotatedImage (d : ApiResponse) : option string :=
  let inner (f : ProcessingResult -> option string) :=
    match data d with Some r => f r | None => None end in
  if Js.truthy_string (annotated_image_base64 (body d))
  then annotated_image_base64 (body d)
  else if Js.truthy_string (inner annotated_image_base64)
  then inner annotated_image_base64
  else if Js.truthy_string (annotated_image (body d))
  then annotated_image (body d)
  else if Js.truthy_string (inner annotated_image)
  then inner annotated_image
  else None.

Definition toDataUrl (annotatedImageData : string) : string :=
  let trimmed := Js.trim annotatedImageData in
  if Js.startsWith trimmed "data:image" then trimmed
  else "data:image/jpeg;base64," ++ trimmed.

(** [processFrame], from the resolution of its fetch to its end, [finally]
    included.  [closure] is the render the call was made from; [nw] is the
    natural width of the image at this moment. *)
Definition processFrame_resume (closure : State) (nw : option Q)
    (o : ProcessOutcome) (s : State) : State :=
  match o with
  | ResponseOk d =>
      match extractResult d with
      | None =>
          setIsProcessing false
            (setIsProcessing false (setError "Invalid API response structure" s))
      | Some resultData =>
          let s1 := setError "" (setResult (Some resultData) s) in
          let s2 :=
            match findAnnotatedImage d with
            | Some img =>
                if Js.truthy_string (Some img)
                then setAnnotatedImage (Some (toDataUrl img)) s1
                else setAnnotatedImage None s1
            | None => setAnnotatedImage None s1
            end in
          let s3 :=
            match detected_objects resultData with
            | Some (o1 :: rest) =>
                setNavigationInstructions
                  (Some (generateNavigationInstructions (result closure) nw
                           (o1 :: rest))) s2
            | _ => setNavigationInstructions None s2
            end in
          setIsProcessing false s3
      end
  | ResponseNotOk detail =>
      let msg := if Js.truthy_string detail
                 then match detail with Some m => m | None => "" end
                 else "Processing failed" in
      setIsProcessing false (setAnnotatedImage None (setError msg s))
  | Thrown err =>
      setIsProcessing false
        (setAnnotatedImage None (setError ("Error processing frame: " ++ err) s))
  end.

(** [stopCamera] after its fetch resolved. *)
Definition stopCamera_resume (s : State) : State :=
  setAnnotatedImage None
    (setNavigationInstructions None
       (setResult None
          (setFrameCount 0
             (setAutoProcess false (setIsCameraRunning false s))))).

Inductive Event :=
| StartCameraOk                  (* startCamera: response.ok *)
| StartCameraRefused (err : option string)   (* startCamera: non-2xx *)
| StartCameraThrown              (* startCamera: fetch rejected *)
| StartFrameStreaming            (* the 500 ms timeout of startCamera fires *)
| FrameLoaded (width : Q)        (* a display refresh fetched and loaded a frame *)
| StopCameraOk                   (* stopCamera: fetch resolved *)
| StopCameraThrown               (* stopCamera: fetch rejected *)
| ToggleAutoProcess (checked : bool)
| ToggleVoice (checked : bool)
| ClickProcess                   (* the manual "Process Frame" button *)
| AutoTick                       (* the 3000 ms interval fires *)
| Resolve (i : nat) (o : ProcessOutcome).  (* the i-th pending request ends *)

Fixpoint remove_nth {A} (i : nat) (l : list A) : list A :=
  match i, l with
  | _, [] => []
  | O, _ :: r => r
  | S j, x :: r => x :: remove_nth j r
  end.

(** The handler of one event. *)
Definition handle (w : World) (e : Event) : World :=
  match e with
  | StartCameraOk =>
      {| st := setError "" (setIsCameraRunning true (st w));
         naturalWidth :=
           (* the <img> is mounted by the render that follows, without a
              source yet *)
           if isCameraRunning (st w) then naturalWidth w else Some 0;
         frameTimer := frameTimer w; processTimer := processTimer w;
         pending := pending w |}
  | StartCameraRefused err =>
      let msg := if Js.truthy_string err
                 then match err with Some m => m | None => "" end
                 else "Failed to start camera" in
      withState (setError msg) w
  | StartCameraThrown => withState (setError "Error connecting to server") w
  | StartFrameStreaming =>
      {| st := st w; naturalWidth := naturalWidth w; frameTimer := Some O;
         processTimer := processTimer w; pending := pending w |}
  | FrameLoaded width =>
      match frameTimer w with
      | None => w
      | Some count =>
          {| st := setFrameCount (S count) (st w);
             naturalWidth :=
               match naturalWidth w with Some _ => Some width | None => None end;
             frameTimer := Some (S count); processTimer := processTimer w;
             pending := pending w |}
      end
  | StopCameraOk =>
      {| st := stopCamera_resume (st w);
         naturalWidth := None;   (* the <img> is unmounted *)
         frameTimer := None;     (* stopFrameStreaming() *)
         processTimer := processTimer w; pending := pending w |}
  | StopCameraThrown => withState (setError "Error stopping camera") w
  | ToggleAutoProcess checked =>
      (* the checkbox is disabled while the camera is off *)
      if isCameraRunning (st w) then withState (setAutoProcess checked) w else w
  | ToggleVoice checked => withState (setVoiceEnabled checked) w
  | ClickProcess =>
      (* disabled={!isCameraRunning || isProcessing || autoProcess} *)
      if negb (isCameraRunning (st w)) || isProcessing (st w) || autoProcess (st w)
      then w
      else processFrame_begin (st w) w
  | AutoTick =>
      match processTimer w with
      | Some closure => processFrame_begin closure w
      | None => w
      end
  | Resolve i o =>
      match nth_error (pending w) i with
      | None => w
      | Some closure =>
          {| st := processFrame_resume closure (naturalWidth w) o (st w);
             naturalWidth := naturalWidth w; frameTimer := frameTimer w;
             processTimer := processTimer w;
             pending := remove_nth i (pending w) |}
      end
  end.

(** The effect with dependencies [autoProcess, isCameraRunning]: when one of
    them changed in the render that follows an event, the old interval is
    cleared and, if both hold, a new one is set whose callback calls the
    [processFrame] of that render. *)
Definition autoProcessEffect (before : State) (w : World) : World :=
  if Bool.eqb (autoProcess before) (autoProcess (st w))
     && Bool.eqb (isCameraRunning before) (isCameraRunning (st w))
  then w
  else
    {| st := st w; naturalWidth := naturalWidth w; frameTimer := frameTimer w;
       processTimer :=
         if autoProcess (st w) && isCameraRunning (st w) then Some (st w)
         else None;
       pending := pending w |}.

Definition step (w : World) (e : Event) : World :=
  autoProcessEffect (st w) (handle w e).

Definition run (w : World) (es : list Event) : World := fold_left step es w.

Definition reachable (w : World) : Prop := exists es, w = run initialWorld es.

(** ** Instruction presence *)

Definition hasObjects (r : option ProcessingResult) : bool :=
  match r with
  | Some res =>
      match detected_objects res with
      | Some (_ :: _) => true
      | _ => false
      end
  | None => false
  end.

Definition holdsInstruction (s : State) : bool :=
  match navigationInstructions s with Some _ => true | None => false end.

Definition instructionInvariant (s : State) : Prop :=
  holdsInstruction s = hasObjects (result s).

(** ** Fixtures: the objects and answers of the documented scenarios *)

Module Scenario.

(** An object whose box spans [x1..x2] horizontally. *)
Definition box (l : string) (x1 x2 : Q) : DetectedObject :=
  {| label := l; confidence := 9 # 10; bounding_box := (x1, 0, x2, 100)%Q |}.

Definition emptyObject : ProcessingResult :=
  {| caption := None; detected_objects := None; guidance := None;
     model_used := None; fusion_enabled := None; llm_description := None;
     attention_stats := None; annotated_image_base64 := None;
     annotated_image := None |}.

Definition resultOf (objs : list DetectedObject) : ProcessingResult :=
  {| caption := Some "a room"; detected_objects := Some objs;
     guidance := Some ""; model_used := Some "gpt2-mini-fusion";
     fusion_enabled := Some true; llm_description := None;
     attention_stats := None; annotated_image_base64 := None;
     annotated_image := None |}.

(** [{ "data": { ...result... } }] *)
Definition wrapped (objs : list DetectedObject) : ApiResponse :=
  {| data := Some (resultOf objs); body := emptyObject |}.

(** [{ ...result... }] *)
Definition flat (objs : list DetectedObject) : ApiResponse :=
  {| data := None; body := resultOf objs |}.

(** [{ "status": "success" }]: neither shape. *)
Definition other : ApiResponse := {| data := None; body := emptyObject |}.

(** Scenario C: a chair with centre 150. *)
Definition objectsC : list DetectedObject := [box "chair" 100 200].

(** Scenario D: person at 320, table at 550, chair at 150. *)
Definition objectsD : list DetectedObject :=
  [box "person" 300 340; box "table" 500 600; box "chair" 100 200].

Definition clearPath : NavigationInstruction :=
  {| direction := dir_forward; priority := safe;
     message := "Clear path ahead. Safe to proceed.";
     reason := "No obstacles detected" |}.

Definition stayLeft : NavigationInstruction :=
  {| direction := dir_left; priority := caution;
     message := "Obstacle on right. Stay left.";
     reason := "Right side: chair" |}.

Definition stopAll : NavigationInstruction :=
  {| direction := dir_stop; priority := danger;
     message := "Stop! Obstacles in all directions.";
     reason := "Multiple obstacles detected" |}.

End Scenario.

(** ** Strings: [includes], [split] and white space at the ends *)

Module JsString.

(** [s.includes(sub)]. *)
Fixpoint includes (sub s : string) : bool :=
  String.prefix sub s ||
  match s with
  | EmptyString => false
  | String _ rest => includes sub rest
  end.

(** [s.split(sep)] for a non-empty separator: the pieces between the
    occurrences of [sep] found from left to right.  [skip] counts the
    characters of a matched separator still to be passed over. *)
Fixpoint split_from (sep : string) (skip : nat) (s : string) : list string :=
  match s with
  | EmptyString => [EmptyString]
  | String c rest =>
      match skip with
      | S k => split_from sep k rest
      | O =>
          if String.prefix sep s
          then EmptyString :: split_from sep (String.length sep - 1) rest
          else match split_from sep O rest with
               | first :: others => String c first :: others
               | [] => [String c EmptyString]
               end
      end
  end.

Definition split (sep s : string) : list string := split_from sep 0 s.

(** The string is empty or starts with a character that is not white
    space. *)
Definition startsClean (s : string) : bool :=
  match s with
  | EmptyString => true
  | String c _ => negb (Js.is_space c)
  end.

(** The string is empty or ends with a character that is not white space. *)
Definition endsClean (s : string) : bool :=
  startsClean (Js.rev_string "" s).

End JsString.

(** ** [parseGuidance] *)

Record GuidanceZones := {
  guidance_left : list string;
  guidance_front : list string;
  guidance_right : list string
}.

(** [part.split(key)[1].split('.')[0].trim()]; [None] stands for the
    TypeError raised when an index yields [undefined]. *)
Definition contentAfter (key part : string) : option string :=
  match nth_error (JsString.split key part) 1 with
  | None => None
  | Some after =>
      match nth_error (JsString.split "." after) 0 with
      | None => None
      | Some first => Some (Js.trim first)
      end
  end.

(** The callback given to [forEach] in [parseGuidance]. *)
Definition parseGuidance_part (zones : GuidanceZones) (part : string)
    : option GuidanceZones :=
  if JsString.includes "left:" part then
    match contentAfter "left:" part with
    | Some content =>
        Some {| guidance_left := guidance_left zones ++ [content];
                guidance_front := guidance_front zones;
                guidance_right := guidance_right zones |}
    | None => None
    end
  else if JsString.includes "front:" part then
    match contentAfter "front:" part with
    | Some content =>
        Some {| guidance_left := guidance_left zones;
                guidance_front := guidance_front zones ++ [content];
                guidance_right := guidance_right zones |}
    | None => None
    end
  else if JsString.includes "right:" part then
    match contentAfter "right:" part with
    | Some content =>
        Some {| guidance_left := guidance_left zones;
                guidance_front := guidance_front zones;
                guidance_right := guidance_right zones ++ [content] |}
    | None => None
    end
  else Some zones.

Fixpoint parseGuidance_parts (zones : GuidanceZones) (parts : list string)
    : option GuidanceZones :=
  match parts with
  | [] => Some zones
  | part :: rest =>
      match parseGuidance_part zones part with
      | Some zones' => parseGuidance_parts zones' rest
      | None => None
      end
  end.

(** [parseGuidance(guidance)]; [None] when the code would throw. *)
Definition parseGuidance (guidance : string) : option GuidanceZones :=
  parseGuidance_parts
    {| guidance_left := []; guidance_front := []; guidance_right := [] |}
    (JsString.split "To your " guidance).

(** The zone a part is filed under, [left:] before [front:] before
    [right:]. *)
Definition partZone (part : string) : option Zone :=
  if JsString.includes "left:" part then Some zone_left
  else if JsString.includes "front:" part then Some zone_front
  else if JsString.includes "right:" part then Some zone_right
  else None.

Definition filedUnder (zone : Zone) (part : string) : bool :=
  match partZone part with
  | Some z => Zone_eqb z zone
  | None => false
  end.

(** ** [drawDirectionOverlay] *)

(** The <img> element behind [imgRef]: displayed and natural size. *)
Record ImageElement := {
  elWidth : Q;
  elHeight : Q;
  elNaturalWidth : Q;
  elNaturalHeight : Q
}.

(** The drawing calls made on the 2D context, each with the context
    settings that matter to it. *)
Inductive CanvasOp :=
| ClearRect (x y w h : Q)
| FillRect (fillStyle : string) (globalAlpha : Q) (x y w h : Q)
| StrokeRect (strokeStyle : string) (lineWidth : Q) (x y w h : Q)
| FillText (fillStyle font textAlign text : string) (x y : Q).

(** The colours of the rectangles stroked, in drawing order. *)
Definition strokeColors (ops : list CanvasOp) : list string :=
  flat_map (fun op => match op with
                      | StrokeRect color _ _ _ _ _ => [color]
                      | _ => []
                      end) ops.

Definition isFill (op : CanvasOp) : bool :=
  match op with
  | FillRect _ _ _ _ _ _ | FillText _ _ _ _ _ _ => true
  | _ => false
  end.

Definition colorRight : string := "#4CAF50".
Definition colorFront : string := "#2196F3".
Definition colorLeft : string := "#FF9800".

(** The colour of an object's box: the [let color] of the [forEach]. *)
Definition boxColor (img : ImageElement) (obj : DetectedObject) : string :=
  let c := centerX obj in
  let origWidth := Js.num_or (Some (elNaturalWidth img)) 640 in
  if Js.lt c (origWidth / 3) then colorRight
  else if Js.lt (2 * origWidth / 3) c then colorLeft
  else colorFront.

(** [(sx1, sy1, sx2 - sx1, sy2 - sy1)]: the box in canvas coordinates. *)
Definition scaledBox (canvasWidth canvasHeight : Q) (img : ImageElement)
    (obj : DetectedObject) : Q * Q * Q * Q :=
  let '(x1, y1, x2, y2) := bounding_box obj in
  let scaleX := (canvasWidth / Js.num_or (Some (elNaturalWidth img)) 640)%Q in
  let scaleY := (canvasHeight / Js.num_or (Some (elNaturalHeight img)) 480)%Q in
  let sx1 := (x1 * scaleX)%Q in
  let sy1 := (y1 * scaleY)%Q in
  let sx2 := (x2 * scaleX)%Q in
  let sy2 := (y2 * scaleY)%Q in
  (sx1, sy1, (sx2 - sx1)%Q, (sy2 - sy1)%Q).

Section Overlay.

(** [ctx.measureText(text).width] with the font 'bold 16px Arial'. *)
Variable measureText : string -> Q.
(** The text of [x.toFixed(0)]. *)
Variable toFixed0 : Q -> string.

(** The body of the [forEach] over the detected objects. *)
Definition drawObject (canvasWidth canvasHeight : Q) (img : ImageElement)
    (obj : DetectedObject) : list CanvasOp :=
  let '(sx1, sy1, w, h) := scaledBox canvasWidth canvasHeight img obj in
  let color := boxColor img obj in
  let text := label obj ++ " " ++ toFixed0 (confidence obj * 100)%Q ++ "%" in
  let textHeight := 24%Q in
  [StrokeRect color 3 sx1 sy1 w h;
   FillRect color 1 sx1 (sy1 - textHeight)%Q (measureText text + 10)%Q textHeight;
   FillText "white" "bold 16px Arial" "start" text (sx1 + 5)%Q (sy1 - 6)%Q].

(** [drawDirectionOverlay()].  It reads the state variables [result],
    [showDirections] and [showBoundingBoxes] of its render and the elements
    behind [canvasRef] and [imgRef].  [None]: it returns before touching the
    canvas; [Some (w, h, ops)]: the canvas is resized to [w] by [h] and
    [ops] are drawn in order. *)
Definition drawDirectionOverlay (canvas : bool) (img : option ImageElement)
    (showDirections showBoundingBoxes : bool)
    (result : option ProcessingResult)
    : option (Q * Q * list CanvasOp) :=
  match img with
  | None => None
  | Some el =>
      if negb canvas || negb showDirections then None
      else
        let width := elWidth el in
        let height := elHeight el in
        let clear := ClearRect 0 0 width height in
        match result with
        | None => Some (width, height, [clear])
        | Some r =>
            match detected_objects r with
            | None => Some (width, height, [clear])
            | Some objs =>
                if negb showBoundingBoxes then Some (width, height, [clear])
                else
                  let nw := Some (elNaturalWidth el) in
                  let rightObjects := getObjectsInZone result nw zone_right in
                  let frontObjects := getObjectsInZone result nw zone_front in
                  let leftObjects := getObjectsInZone result nw zone_left in
                  let bands :=
                    ((if is_empty rightObjects then []
                      else [FillRect colorRight (2 # 10) 0 0 (width / 3) height])
                     ++ (if is_empty frontObjects then []
                         else [FillRect colorFront (2 # 10) (width / 3) 0
                                 (width / 3) height])
                     ++ (if is_empty leftObjects then []
                         else [FillRect colorLeft (2 # 10) (2 * width / 3) 0
                                 (width / 3) height]))%list in
                  let boxes := flat_map (drawObject width height el) objs in
                  let banner color text x :=
                    [FillRect color 1 (x - 60)%Q 10 120 40;
                     FillText "white" "bold 20px Arial" "center" text x 37] in
                  let banners :=
                    ((if is_empty rightObjects then []
                      else banner "rgba(76, 175, 80, 0.8)" "➡️ RIGHT" (width / 6)%Q)
                     ++ (if is_empty frontObjects then []
                         else banner "rgba(33, 150, 243, 0.8)" "⬆️ FRONT"
                                (width / 2)%Q)
                     ++ (if is_empty leftObjects then []
                         else banner "rgba(255, 152, 0, 0.8)" "⬅️ LEFT"
                                (5 * width / 6)%Q))%list in
                  Some (width, height, (clear :: bands ++ boxes ++ banners)%list)
            end
        end
  end.

End Overlay.

(** ** Notions used to state further properties *)

(** The objects of the captured result ([[]] when there is none). *)
Definition heldObjects (r : option ProcessingResult) : list DetectedObject :=
  match r with
  | Some res =>
      match detected_objects res with Some objs => objs | None => [] end
  | None => []
  end.

(** [leftDanger], [frontDanger] and [rightDanger] of
    [generateNavigationInstructions]. *)
Definition dangerIn (r : option ProcessingResult) (nw : option Q)
    (zone : Zone) : list DetectedObject :=
  filter isDangerous (getObjectsInZone r nw zone).

(** The events of an event list that switch auto-process on. *)
Definition switchesAutoOn (e : Event) : bool :=
  match e with ToggleAutoProcess true => true | _ => false end.

(** * Properties *)

(** ** Number comparisons *)

Section Comparisons.
Local Open Scope Q_scope.

Lemma lt_true_iff (x y : Q) : Js.lt x y = true <-> x < y.
Proof.
  unfold Js.lt. rewrite negb_true_iff. split; intro H.
  - apply Qnot_le_lt. intro H1. apply Qle_bool_iff in H1. congruence.
  - destruct (Qle_bool y x) eqn:E; trivial. apply Qle_bool_iff in E. lra.
Qed.

Lemma le_true_iff (x y : Q) : Js.le x y = true <-> x <= y.
Proof. unfold Js.le. apply Qle_bool_iff. Qed.






End Comparisons.

(** ** Zone classifier *)

Section ZoneClassifier.
Local Open Scope Q_scope.

Lemma inZone_right (width : Q) (obj : DetectedObject) :
  inZone zone_right width obj = Js.lt (centerX obj) (width / 3).
Proof. unfold inZone. simpl. destruct (Js.lt _ _); reflexivity. Qed.

Lemma inZone_left (width : Q) (obj : DetectedObject) :
  inZone zone_left width obj = Js.lt (2 * width / 3) (centerX obj).
Proof. unfold inZone. simpl. destruct (Js.lt _ _); reflexivity. Qed.

Lemma inZone_front (width : Q) (obj : DetectedObject) :
  inZone zone_front width obj =
  Js.le (width / 3) (centerX obj) && Js.le (centerX obj) (2 * width / 3).
Proof. unfold inZone. simpl. destruct (_ && _); reflexivity. Qed.

Lemma inZone_right_iff width obj :
  inZone zone_right width obj = true <-> centerX obj < width / 3.
Proof. rewrite inZone_right. apply lt_true_iff. Qed.

Lemma inZone_left_iff width obj :
  inZone zone_left width obj = true <-> 2 * width / 3 < centerX obj.
Proof. rewrite inZone_left. apply lt_true_iff. Qed.

Lemma inZone_front_iff width obj :
  inZone zone_front width obj = true <->
  width / 3 <= centerX obj /\ centerX obj <= 2 * width / 3.
Proof.
  rewrite inZone_front, andb_true_iff, !le_true_iff. reflexivity.
Qed.

(** A positive natural width is used as it is. *)
Lemma zoneWidth_pos (w : Q) : 0 < w -> zoneWidth (Some w) = w.
Proof.
  intro H. unfold zoneWidth, Js.num_or.
  destruct (Qeq_bool w 0) eqn:E; trivial.
  apply Qeq_bool_iff in E. lra.
Qed.

(** What [getObjectsInZone] returns: the objects of the captured result
    that satisfy the zone test, in their order. *)
Lemma getObjectsInZone_In r objs nw zone obj :
  detected_objects r = Some objs ->
  (In obj (getObjectsInZone (Some r) nw zone) <->
   In obj objs /\ inZone zone (zoneWidth nw) obj = true).
Proof.
  intro H. unfold getObjectsInZone. rewrite H. apply filter_In.
Qed.


End ZoneClassifier.


(** ** Zone classifier on binary64 numbers *)

(** The comparison of two doubles is the lexicographic comparison of their
    keys. *)
Section SpecOrder.
Local Open Scope Z_scope.

Lemma SFcompare_key (x y : spec_float) :
  SFcompare x y =
  match Double.key x, Double.key y with
  | Some a, Some b => Some (Double.lex3 a b)
  | _, _ => None
  end.
Proof.
  destruct x as [sx | sx | | sx mx ex], y as [sy | sy | | sy my ey];
    try destruct sx; try destruct sy; try reflexivity; simpl.
  rewrite Z.compare_opp, (Z.compare_antisym ex ey).
  destruct (ex ?= ey); reflexivity.
Qed.

Lemma lex3_Lt (a b : Z * Z * Z) :
  Double.lex3 a b = Lt <->
  let '(a1, a2, a3) := a in
  let '(b1, b2, b3) := b in
  a1 < b1 \/ (a1 = b1 /\ (a2 < b2 \/ (a2 = b2 /\ a3 < b3))).
Proof.
  destruct a as [[a1 a2] a3], b as [[b1 b2] b3]. unfold Double.lex3.
  destruct (Z.compare_spec a1 b1); destruct (Z.compare_spec a2 b2);
    destruct (Z.compare_spec a3 b3); split; intro HH; try discriminate;
    try reflexivity; lia.
Qed.

Lemma lex3_Eq (a b : Z * Z * Z) : Double.lex3 a b = Eq <-> a = b.
Proof.
  destruct a as [[a1 a2] a3], b as [[b1 b2] b3]. unfold Double.lex3.
  destruct (Z.compare_spec a1 b1); destruct (Z.compare_spec a2 b2);
    destruct (Z.compare_spec a3 b3); split; intro HH; try discriminate;
    try reflexivity; try (injection HH; lia); subst; reflexivity.
Qed.

Lemma lex3_Gt (a b : Z * Z * Z) : Double.lex3 a b = Gt <-> Double.lex3 b a = Lt.
Proof.
  destruct a as [[a1 a2] a3], b as [[b1 b2] b3]. unfold Double.lex3.
  rewrite (Z.compare_antisym a1 b1), (Z.compare_antisym a2 b2),
    (Z.compare_antisym a3 b3).
  destruct (a1 ?= b1); destruct (a2 ?= b2); destruct (a3 ?= b3); simpl;
    split; intro H; try discriminate; reflexivity.
Qed.

End SpecOrder.

Ltac lex_norm :=
  repeat match goal with
  | H : Double.lex3 _ _ = Lt |- _ =>
      apply lex3_Lt in H; cbv beta iota in H
  | H : Double.lex3 _ _ = Gt |- _ =>
      apply lex3_Gt in H; apply lex3_Lt in H; cbv beta iota in H
  | H : Double.lex3 _ _ = Eq |- _ => apply lex3_Eq in H; injection H as ? ? ?
  end.

(** Rounding commutes with a step of the exponent, away from the subnormal
    range. *)
Section Rounding.
Local Open Scope Z_scope.

Lemma Zdigits2_nonneg (q : Z) : 0 <= Zdigits2 q.
Proof. destruct q; simpl; lia. Qed.

Lemma fexp_normal (d E : Z) :
  0 <= d -> emin + prec <= E -> fexp prec emax (d + E) - E = d - prec.
Proof. unfold fexp, SpecFloat.emin, emax, prec. lia. Qed.

Lemma shr_fexp_bump (q : Z) (l : location) (E : Z) :
  emin + prec <= E ->
  shr_fexp prec emax q (E + 1) l =
  (fst (shr_fexp prec emax q E l), snd (shr_fexp prec emax q E l) + 1).
Proof.
  intro HE. unfold shr_fexp.
  rewrite (fexp_normal (Zdigits2 q) E (Zdigits2_nonneg q) HE).
  rewrite (fexp_normal (Zdigits2 q) (E + 1) (Zdigits2_nonneg q)) by lia.
  unfold shr. destruct (Zdigits2 q - prec); simpl; f_equal; lia.
Qed.

Lemma shr_fexp_exp (q : Z) (l : location) (E : Z) :
  E <= snd (shr_fexp prec emax q E l).
Proof.
  unfold shr_fexp, shr.
  destruct (fexp prec emax (Zdigits2 q + E) - E); simpl; lia.
Qed.

Lemma binary_round_aux_bump (s : bool) (q : Z) (l : location) (E : Z) :
  emin + prec <= E ->
  binary_round_aux prec emax s q (E + 1) l =
  Double.bump (binary_round_aux prec emax s q E l).
Proof.
  intro HE. unfold binary_round_aux.
  rewrite (shr_fexp_bump q l E HE).
  assert (H1 := shr_fexp_exp q l E).
  destruct (shr_fexp prec emax q E l) as [mrs' e']. simpl fst. simpl snd.
  simpl snd in H1.
  set (q2 := round_nearest_even (shr_m mrs') (loc_of_shr_record mrs')).
  rewrite (shr_fexp_bump q2 loc_Exact e') by lia.
  assert (H2 := shr_fexp_exp q2 loc_Exact e').
  destruct (shr_fexp prec emax q2 e' loc_Exact) as [mrs'' e''].
  simpl fst. simpl snd.
  destruct (shr_m mrs'') as [| m | m]; try reflexivity.
  unfold Double.bump.
  destruct (Z.leb_spec e'' (emax - prec));
    destruct (Z.leb_spec (e'' + 1) (emax - prec));
    try reflexivity; lia.
Qed.

End Rounding.

(** So does the quotient before rounding; the quotient of non-negative
    mantissas rounds to a number of the sign asked for. *)
Section Division.
Local Open Scope Z_scope.

Lemma SFdiv_core_bump (m1 m2 : Z) (e1 e2 : Z) :
  emin + prec <= Zdigits2 m1 + e1 - (Zdigits2 m2 + e2) ->
  SFdiv_core_binary prec emax m1 (e1 + 1) m2 e2 =
  (let '(q, e', l) := SFdiv_core_binary prec emax m1 e1 m2 e2 in
   (q, e' + 1, l)).
Proof.
  intro H. unfold SFdiv_core_binary.
  set (d1 := Zdigits2 m1) in *. set (d2 := Zdigits2 m2) in *.
  assert (He : Z.min (fexp prec emax (d1 + (e1 + 1) - (d2 + e2))) (e1 + 1 - e2)
               = Z.min (fexp prec emax (d1 + e1 - (d2 + e2))) (e1 - e2) + 1).
  { unfold fexp, SpecFloat.emin, emax, prec in *. lia. }
  rewrite He.
  set (e' := Z.min (fexp prec emax (d1 + e1 - (d2 + e2))) (e1 - e2)).
  replace (e1 + 1 - e2 - (e' + 1)) with (e1 - e2 - e') by lia.
  destruct (Z.div_eucl _ m2) as [q r]. reflexivity.
Qed.

Lemma SFdiv_core_exp (m1 m2 : Z) (e1 e2 : Z) :
  Z.min (Zdigits2 m1 + e1 - (Zdigits2 m2 + e2) - prec) (e1 - e2) <=
  snd (fst (SFdiv_core_binary prec emax m1 e1 m2 e2)).
Proof.
  unfold SFdiv_core_binary.
  destruct (Z.div_eucl _ m2) as [q r]. simpl.
  unfold fexp, SpecFloat.emin, emax, prec. lia.
Qed.

Lemma SFdiv_core_nonneg (m1 m2 : Z) (e1 e2 : Z) :
  0 <= m1 -> 0 < m2 ->
  0 <= fst (fst (SFdiv_core_binary prec emax m1 e1 m2 e2)).
Proof.
  intros H1 H2. unfold SFdiv_core_binary.
  set (m' := match _ with Z0 => m1 | Zpos _ => _ | Zneg _ => 0 end).
  assert (Hm : 0 <= m').
  { unfold m'. destruct (e1 - e2 - _); try lia.
    apply Z.shiftl_nonneg. exact H1. }
  assert (Hq : fst (Z.div_eucl m' m2) = m' / m2) by reflexivity.
  destruct (Z.div_eucl m' m2) as [q r]. simpl in *. subst q.
  apply Z.div_pos; lia.
Qed.

Lemma iter_pos_inv {A} (P : A -> Prop) (f : A -> A) :
  (forall x, P x -> P (f x)) ->
  forall p x, P x -> P (SpecFloat.iter_pos f p x).
Proof.
  intro Hf. induction p as [p IH | p IH |]; intros x Hx; simpl; auto.
Qed.

Lemma shr_1_nonneg (mrs : shr_record) :
  0 <= shr_m mrs -> 0 <= shr_m (shr_1 mrs).
Proof.
  destruct mrs as [m r s]. simpl.
  destruct m as [| [p | p |] | [p | p |]]; simpl; lia.
Qed.

Lemma shr_fexp_nonneg (q : Z) (l : location) (E : Z) :
  0 <= q -> 0 <= shr_m (fst (shr_fexp prec emax q E l)).
Proof.
  intro Hq. unfold shr_fexp, shr.
  assert (H0 : 0 <= shr_m (shr_record_of_loc q l))
    by (destruct l as [| []]; exact Hq).
  destruct (fexp prec emax (Zdigits2 q + E) - E); simpl; trivial.
  apply (iter_pos_inv (fun mrs => 0 <= shr_m mrs)); trivial.
  apply shr_1_nonneg.
Qed.

Lemma round_nearest_even_nonneg (m : Z) (l : location) :
  0 <= m -> 0 <= round_nearest_even m l.
Proof.
  intro H. destruct l as [| []]; simpl; try lia.
  destruct (Z.even m); lia.
Qed.

Lemma binary_round_aux_signed (s : bool) (q : Z) (l : location) (E : Z) :
  0 <= q -> Double.signed s (binary_round_aux prec emax s q E l).
Proof.
  intro Hq. unfold binary_round_aux.
  assert (H1 := shr_fexp_nonneg q l E Hq).
  destruct (shr_fexp prec emax q E l) as [mrs' e']. simpl in H1.
  assert (H2 := shr_fexp_nonneg _ loc_Exact e'
                  (round_nearest_even_nonneg _ (loc_of_shr_record mrs') H1)).
  destruct (shr_fexp prec emax _ e' loc_Exact) as [mrs'' e'']. simpl in H2.
  destruct (shr_m mrs'') as [| m | m]; simpl; try reflexivity; try lia.
  destruct (_ <=? _); simpl; reflexivity.
Qed.

Lemma SFleb_bump (a : spec_float) :
  Double.signed false a -> SFleb a (Double.bump a) = true.
Proof.
  destruct a as [s | s | | s m e]; cbn [Double.signed Double.bump]; intro H;
    try contradiction; try subst s; try reflexivity.
  destruct (e + 1 <=? emax - prec); [| reflexivity].
  unfold SFleb. cbn [SFcompare].
  assert (He : (e ?= e + 1) = Lt) by (apply Z.compare_lt_iff; lia).
  rewrite He. reflexivity.
Qed.

Lemma SFleb_infinity (a : spec_float) :
  Double.signed false a -> SFleb a (S754_infinity false) = true.
Proof.
  destruct a as [s | s | | s m e]; simpl; intro H; try subst s;
    try reflexivity; contradiction.
Qed.

End Division.

(** The two thresholds are in order: for a width w of at least 1, 2*w is w
    with the next exponent, and so is (2*w)/3 with respect to w/3. *)
Section Thirds.
Local Open Scope Z_scope.

(** Doubling a normal number is exact: it moves the exponent. *)
Lemma SFmul_two (m : positive) (e : Z) :
  digits2_pos m = 53%positive -> -52 <= e -> e <= emax - prec ->
  SFmul prec emax Double.sf_two (S754_finite false m e)
  = Double.bump (S754_finite false m e).
Proof.
  intros Hd He1 He2.
  assert (H1 : binary_round_aux prec emax false
                 (Zpos (4503599627370496 * m)) (-52 + e) loc_Exact
               = S754_finite false m e).
  { unfold binary_round_aux.
    assert (Hs : shr_fexp prec emax (Zpos (4503599627370496 * m)) (-52 + e)
                   loc_Exact
                 = ({| shr_m := Zpos m; shr_r := false; shr_s := false |}, e)).
    { unfold shr_fexp.
      assert (Hdig : Zdigits2 (Zpos (4503599627370496 * m)) = 105).
      { cbn [Pos.mul Zdigits2 digits2_pos]. rewrite Hd. reflexivity. }
      rewrite Hdig, fexp_normal by (unfold SpecFloat.emin, emax, prec; lia).
      change (105 - prec) with 52.
      unfold shr. cbn [Pos.mul shr_record_of_loc].
      replace (-52 + e + 52) with e by lia.
      reflexivity. }
    rewrite Hs. cbn [shr_m shr_r shr_s loc_of_shr_record round_nearest_even].
    unfold shr_fexp. cbn [Zdigits2]. rewrite Hd.
    rewrite fexp_normal by (unfold SpecFloat.emin, emax, prec; lia).
    change (53 - prec) with 0.
    cbn [shr shr_record_of_loc shr_m].
    destruct (Z.leb_spec e (emax - prec)); [reflexivity | lia]. }
  unfold SFmul, Double.sf_two. cbn [xorb].
  replace (-51 + e) with (-52 + e + 1) by lia.
  rewrite binary_round_aux_bump
    by (unfold SpecFloat.emin, emax, prec; lia).
  rewrite H1. reflexivity.
Qed.

Lemma SFdiv_three_bump (m : positive) (e : Z) :
  digits2_pos m = 53%positive -> -52 <= e ->
  SFdiv prec emax (S754_finite false m (e + 1)) Double.sf_three =
  Double.bump (SFdiv prec emax (S754_finite false m e) Double.sf_three).
Proof.
  intros Hd He. unfold SFdiv, Double.sf_three. cbn [xorb].
  assert (Hd3 : Zdigits2 6755399441055744 = 53) by reflexivity.
  assert (Hdm : Zdigits2 (Zpos m) = 53)
    by (cbn [Zdigits2]; rewrite Hd; reflexivity).
  rewrite SFdiv_core_bump
    by (rewrite Hd3, Hdm; unfold SpecFloat.emin, emax, prec; lia).
  assert (Hx := SFdiv_core_exp (Zpos m) 6755399441055744 e (-51)).
  rewrite Hd3, Hdm in Hx.
  destruct (SFdiv_core_binary prec emax (Zpos m) e 6755399441055744 (-51))
    as [[q e'] l].
  cbn [fst snd] in Hx.
  apply binary_round_aux_bump.
  unfold SpecFloat.emin, emax, prec in *. lia.
Qed.

Lemma SFdiv_three_signed (m : positive) (e : Z) :
  Double.signed false (SFdiv prec emax (S754_finite false m e) Double.sf_three).
Proof.
  unfold SFdiv, Double.sf_three. cbn [xorb].
  assert (Hq := SFdiv_core_nonneg (Zpos m) 6755399441055744 e (-51)).
  destruct (SFdiv_core_binary prec emax (Zpos m) e 6755399441055744 (-51))
    as [[q e'] l].
  apply binary_round_aux_signed. apply Hq; lia.
Qed.

Lemma SF_thirds_ordered (m : positive) (e : Z) :
  digits2_pos m = 53%positive -> -52 <= e -> e <= emax - prec ->
  SFleb (SFdiv prec emax (S754_finite false m e) Double.sf_three)
        (SFdiv prec emax
           (SFmul prec emax Double.sf_two (S754_finite false m e))
           Double.sf_three)
  = true.
Proof.
  intros Hd He1 He2. rewrite SFmul_two by assumption.
  cbn [Double.bump]. destruct (e + 1 <=? emax - prec).
  - rewrite SFdiv_three_bump by assumption.
    apply SFleb_bump, SFdiv_three_signed.
  - apply SFleb_infinity, SFdiv_three_signed.
Qed.

End Thirds.

(** Sums and quotients of finite doubles are numbers. *)
Section SpecArith.
Local Open Scope Z_scope.

Lemma signed_eqb (s : bool) (f : spec_float) :
  Double.signed s f -> SFeqb f f = true.
Proof.
  intro H. unfold SFeqb. rewrite SFcompare_key.
  destruct f as [s' | s' | | s' m e]; try contradiction;
    destruct s'; simpl; rewrite ?Z.compare_refl, ?Pos.compare_refl;
    try reflexivity.
Qed.

Lemma binary_round_signed (s : bool) (m : positive) (e : Z) :
  Double.signed s (binary_round prec emax s m e).
Proof.
  unfold binary_round.
  destruct (shl_align m e _) as [mz ez].
  apply binary_round_aux_signed. lia.
Qed.

Lemma SFadd_not_nan (X Y : spec_float) :
  X <> S754_nan -> Y <> S754_nan ->
  (forall s, X <> S754_infinity s) -> (forall s, Y <> S754_infinity s) ->
  SFadd prec emax X Y <> S754_nan.
Proof.
  intros HX HY IX IY.
  destruct X as [sx | sx | | sx mx ex]; try congruence;
    try (exfalso; apply (IX sx); reflexivity);
    destruct Y as [sy | sy | | sy my ey]; try congruence;
    try (exfalso; apply (IY sy); reflexivity); simpl.
  - destruct sx, sy; discriminate.
  - discriminate.
  - discriminate.
  - unfold binary_normalize.
    destruct (_ + _) as [| m | m]; try discriminate.
    + assert (H := binary_round_signed false m (Z.min ex ey)).
      intro E. rewrite E in H. exact H.
    + assert (H := binary_round_signed true m (Z.min ex ey)).
      intro E. rewrite E in H. exact H.
Qed.

Lemma SFdiv_finite_not_nan (X : spec_float) (s : bool) (m : positive) (e : Z) :
  X <> S754_nan -> SFdiv prec emax X (S754_finite s m e) <> S754_nan.
Proof.
  intro HX. destruct X as [sx | sx | | sx mx ex]; try congruence; simpl;
    try discriminate.
  assert (Hq := SFdiv_core_nonneg (Zpos mx) (Zpos m) ex e).
  destruct (SFdiv_core_binary prec emax (Zpos mx) ex (Zpos m) e) as [[q e'] l].
  assert (H := binary_round_aux_signed (xorb sx s) q l e').
  intro E. rewrite E in H. apply H. apply Hq; lia.
Qed.

(** Exactly one of the three tests on a centre that is a number, for
    thresholds in order. *)
Lemma SF_exactly_one (C T1 T2 : spec_float) :
  SFeqb C C = true -> SFleb T1 T2 = true ->
  (SFltb C T1 = true /\ SFltb T2 C = false /\ SFleb T1 C && SFleb C T2 = false) \/
  (SFltb C T1 = false /\ SFltb T2 C = true /\ SFleb T1 C && SFleb C T2 = false) \/
  (SFltb C T1 = false /\ SFltb T2 C = false /\ SFleb T1 C && SFleb C T2 = true).
Proof.
  unfold SFltb, SFleb, SFeqb. rewrite !SFcompare_key.
  destruct (Double.key C) as [[[c1 c2] c3] |]; [| discriminate].
  destruct (Double.key T1) as [[[x1 x2] x3] |]; [| discriminate].
  destruct (Double.key T2) as [[[y1 y2] y3] |]; [| discriminate].
  intros _ H.
  destruct (Double.lex3 (x1, x2, x3) (y1, y2, y3)) eqn:E0; try discriminate;
    clear H;
    destruct (Double.lex3 (c1, c2, c3) (x1, x2, x3)) eqn:E1;
    destruct (Double.lex3 (y1, y2, y3) (c1, c2, c3)) eqn:E2;
    destruct (Double.lex3 (x1, x2, x3) (c1, c2, c3)) eqn:E3;
    destruct (Double.lex3 (c1, c2, c3) (y1, y2, y3)) eqn:E4;
    simpl; auto;
    exfalso;
    lex_norm; lia.
Qed.

End SpecArith.

(** The same facts on the primitive doubles of the classifier. *)
Section DoubleFacts.
Local Open Scope float_scope.

Lemma width_shape (w : float) :
  (1 <=? w) = true ->
  Prim2SF w = S754_infinity false \/
  exists m e, Prim2SF w = S754_finite false m e /\
              digits2_pos m = 53%positive /\
              (-52 <= e)%Z /\ (e <= emax - prec)%Z.
Proof.
  rewrite FloatAxioms.leb_spec. change (Prim2SF 1) with Double.sf_one.
  assert (V := Prim2SF_valid w). revert V.
  destruct (Prim2SF w) as [s | s | | s m e]; unfold SFleb, Double.sf_one;
    cbn [SFcompare]; intros V H; try discriminate H.
  - destruct s; [discriminate H | left; reflexivity].
  - destruct s; [discriminate H |]. right. exists m, e.
    split; [reflexivity |].
    assert (He : (-52 <= e)%Z).
    { destruct (Z.compare_spec (-52) e); try lia; discriminate H. }
    unfold valid_binary, bounded, canonical_mantissa in V.
    apply andb_prop in V. destruct V as [V1 V2].
    apply Z.eqb_eq in V1. apply Z.leb_le in V2.
    unfold fexp, SpecFloat.emin, emax, prec in *.
    repeat split; lia.
Qed.

Lemma thirds_ordered_double (w : float) :
  (1 <=? w) = true -> (w / 3 <=? 2 * w / 3) = true.
Proof.
  intro H.
  rewrite FloatAxioms.leb_spec, !FloatAxioms.div_spec, FloatAxioms.mul_spec.
  change (Prim2SF 3) with Double.sf_three.
  change (Prim2SF 2) with Double.sf_two.
  destruct (width_shape w H) as [E | (m & e & E & Hd & He1 & He2)]; rewrite E.
  - reflexivity.
  - apply SF_thirds_ordered; assumption.
Qed.

Lemma width_truthy (w : float) : (1 <=? w) = true -> Double.truthy w = true.
Proof.
  intro H. unfold Double.truthy, is_nan, is_zero. rewrite !FloatAxioms.eqb_spec.
  change (Prim2SF zero) with (S754_zero false).
  destruct (width_shape w H) as [E | (m & e & E & _)]; rewrite E;
    [reflexivity |].
  rewrite (signed_eqb false) by (simpl; reflexivity). reflexivity.
Qed.

Lemma zoneWidth_pixels (w : float) :
  (1 <=? w) = true -> Double.zoneWidth (Some w) = w.
Proof.
  intro H. unfold Double.zoneWidth, Double.num_or.
  rewrite (width_truthy w H). reflexivity.
Qed.

Lemma zoneWidth_zero_double (w : float) :
  (w =? 0) = true -> Double.zoneWidth (Some w) = 640.
Proof.
  intro H. unfold Double.zoneWidth, Double.num_or, Double.truthy, is_zero.
  change zero with 0. rewrite H, orb_true_r. reflexivity.
Qed.

Lemma is_nan_false (x : float) :
  is_nan x = false <-> SFeqb (Prim2SF x) (Prim2SF x) = true.
Proof.
  unfold is_nan. rewrite negb_false_iff, FloatAxioms.eqb_spec. reflexivity.
Qed.

Lemma is_finite_spec (x : float) :
  is_finite x = true ->
  Prim2SF x <> S754_nan /\ forall s, Prim2SF x <> S754_infinity s.
Proof.
  unfold is_finite, is_nan, is_infinity.
  rewrite !FloatAxioms.eqb_spec, FloatAxioms.abs_spec.
  change (Prim2SF infinity) with (S754_infinity false).
  destruct (Prim2SF x) as [s | [|] | | s m e]; simpl; intro H;
    try discriminate H; split; try discriminate; intros s'; discriminate.
Qed.

Lemma centerX_not_nan (obj : Double.DetectedObject) (x1 y1 x2 y2 : float) :
  Double.bounding_box obj = (x1, y1, x2, y2) ->
  is_finite x1 = true -> is_finite x2 = true ->
  is_nan (Double.centerX obj) = false.
Proof.
  intros Hb H1 H2. unfold Double.centerX. rewrite Hb.
  apply is_nan_false. rewrite FloatAxioms.div_spec, FloatAxioms.add_spec.
  change (Prim2SF 2) with Double.sf_two.
  destruct (is_finite_spec x1 H1) as [N1 I1].
  destruct (is_finite_spec x2 H2) as [N2 I2].
  assert (N := SFdiv_finite_not_nan _ false 4503599627370496 (-51)
                 (SFadd_not_nan _ _ N1 N2 I1 I2)).
  fold Double.sf_two in N. unfold SF64div, SF64add.
  destruct (SFdiv prec emax _ Double.sf_two) as [s | s | | s m e];
    [| | congruence |]; eapply signed_eqb; simpl; reflexivity.
Qed.

Lemma exactly_one_test (c t1 t2 : float) :
  is_nan c = false -> (t1 <=? t2) = true ->
  ((c <? t1) = true /\ (t2 <? c) = false /\ (t1 <=? c) && (c <=? t2) = false) \/
  ((c <? t1) = false /\ (t2 <? c) = true /\ (t1 <=? c) && (c <=? t2) = false) \/
  ((c <? t1) = false /\ (t2 <? c) = false /\ (t1 <=? c) && (c <=? t2) = true).
Proof.
  rewrite is_nan_false, !FloatAxioms.leb_spec, !FloatAxioms.ltb_spec.
  apply SF_exactly_one.
Qed.

Lemma inZone_right_test (width : float) (obj : Double.DetectedObject) :
  Double.inZone zone_right width obj = (Double.centerX obj <? width / 3).
Proof. unfold Double.inZone. simpl. destruct (_ <? _); reflexivity. Qed.

Lemma inZone_left_test (width : float) (obj : Double.DetectedObject) :
  Double.inZone zone_left width obj = (2 * width / 3 <? Double.centerX obj).
Proof. unfold Double.inZone. simpl. destruct (_ <? _); reflexivity. Qed.

Lemma inZone_front_test (width : float) (obj : Double.DetectedObject) :
  Double.inZone zone_front width obj =
  (width / 3 <=? Double.centerX obj) && (Double.centerX obj <=? 2 * width / 3).
Proof. unfold Double.inZone. simpl. destruct (_ && _); reflexivity. Qed.

Lemma boundary_is_front (c t1 t2 : float) :
  (t1 <=? t2) = true -> (c =? t1) = true \/ (c =? t2) = true ->
  (c <? t1) = false /\ (t2 <? c) = false /\ (t1 <=? c) && (c <=? t2) = true.
Proof.
  rewrite !FloatAxioms.leb_spec, !FloatAxioms.ltb_spec, !FloatAxioms.eqb_spec.
  set (C := Prim2SF c). set (T1 := Prim2SF t1). set (T2 := Prim2SF t2).
  clearbody C T1 T2. clear c t1 t2.
  unfold SFltb, SFleb, SFeqb. rewrite !SFcompare_key.
  destruct (Double.key C) as [[[c1 c2] c3] |];
    [| intros _ [H | H]; discriminate H].
  destruct (Double.key T1) as [[[x1 x2] x3] |]; [| discriminate].
  destruct (Double.key T2) as [[[y1 y2] y3] |]; [| discriminate].
  intros H0 H.
  destruct (Double.lex3 (x1, x2, x3) (y1, y2, y3)) eqn:E0; try discriminate H0;
    clear H0;
    destruct (Double.lex3 (c1, c2, c3) (x1, x2, x3)) eqn:E1;
    destruct (Double.lex3 (y1, y2, y3) (c1, c2, c3)) eqn:E2;
    destruct (Double.lex3 (x1, x2, x3) (c1, c2, c3)) eqn:E3;
    destruct (Double.lex3 (c1, c2, c3) (y1, y2, y3)) eqn:E4;
    simpl; auto;
    exfalso; destruct H as [H | H]; try discriminate H;
    lex_norm; lia.
Qed.

End DoubleFacts.

Section ZoneClaims.
Local Open Scope float_scope.

(** C4, as the code has it.  Zone boundaries and mirrored mapping, on the
    numbers the code computes: for every object and every image width of at
    least one pixel, with width/3 and 2*width/3 the doubles the code computes,
    a centre below width/3 is in the RIGHT zone, a centre above 2*width/3 is
    in the LEFT zone, and a centre equal to width/3 or to 2*width/3 is in the
    FRONT zone and in neither the LEFT nor the RIGHT zone. *)
Theorem zone_boundaries_as_computed (obj : Double.DetectedObject)
    (naturalWidth : float) :
  (1 <=? naturalWidth) = true ->
  let width := Double.zoneWidth (Some naturalWidth) in
  let c := Double.centerX obj in
  ((c <? width / 3) = true -> Double.inZone zone_right width obj = true) /\
  ((2 * width / 3 <? c) = true -> Double.inZone zone_left width obj = true) /\
  ((c =? width / 3) = true \/ (c =? 2 * width / 3) = true ->
   Double.inZone zone_front width obj = true /\
   Double.inZone zone_left width obj = false /\
   Double.inZone zone_right width obj = false).
Proof.
  intros Hw width c. unfold width. rewrite (zoneWidth_pixels _ Hw).
  rewrite inZone_right_test, inZone_left_test, inZone_front_test. fold c.
  split; [trivial |]. split; [trivial |].
  intro Hc.
  destruct (boundary_is_front c _ _ (thirds_ordered_double _ Hw) Hc)
    as (R & L & F).
  auto.
Qed.

(** C4, on a 640 pixel wide image: the centre 426.6666666666667, the double
    the code computes for 2*640/3, is FRONT. *)
Lemma zone_boundaries_as_computed_witness :
  let obj := {| Double.label := "chair"; Double.confidence := 0.5;
                Double.bounding_box := (0x1.aaaaaaaaaaaabp+8, 0,
                                        0x1.aaaaaaaaaaaabp+8, 100) |} in
  Double.inZone zone_front (Double.zoneWidth (Some 640)) obj = true /\
  Double.inZone zone_left (Double.zoneWidth (Some 640)) obj = false /\
  Double.inZone zone_right (Double.zoneWidth (Some 640)) obj = false.
Proof.
  intro obj.
  apply (zone_boundaries_as_computed obj 640).
  - reflexivity.
  - right. reflexivity.
Defined.

(** C4 fails for the exact thirds of the width.  In a 640 pixel wide image the
    centre 426.6666666666667 (the double 7505999378950827 / 2^44) lies
    strictly above 2*640/3, and the object is in the FRONT zone, not in the
    LEFT zone: the code compares with the double nearest to 2*640/3, which is
    that same centre. *)
Lemma left_threshold_is_rounded :
  let obj := {| Double.label := "chair"; Double.confidence := 0.5;
                Double.bounding_box := (0x1.aaaaaaaaaaaabp+8, 0,
                                        0x1.aaaaaaaaaaaabp+8, 100) |} in
  Double.value 640 = Some 640%Q /\
  Double.value (Double.centerX obj)
    = Some (7505999378950827 # 17592186044416)%Q /\
  (2 * 640 / 3 < 7505999378950827 # 17592186044416)%Q /\
  Double.inZone zone_left (Double.zoneWidth (Some 640)) obj = false /\
  Double.inZone zone_front (Double.zoneWidth (Some 640)) obj = true.
Proof. repeat split; reflexivity. Qed.

(** C10, as the code has it.  Zone partition on the numbers the code computes:
    for every object whose horizontal coordinates are finite and every natural
    width that is missing, zero or at least one pixel, the three zone tests
    are the comparisons centre < width/3 (RIGHT), centre > 2*width/3 (LEFT)
    and width/3 <= centre <= 2*width/3 (FRONT) on the doubles the code
    computes, and exactly one of them holds. *)
Theorem zone_tests_exactly_one (obj : Double.DetectedObject)
    (naturalWidth : option float) (x1 y1 x2 y2 : float) :
  Double.bounding_box obj = (x1, y1, x2, y2) ->
  is_finite x1 = true -> is_finite x2 = true ->
  match naturalWidth with
  | Some w => (w =? 0) || (1 <=? w)
  | None => true
  end = true ->
  let width := Double.zoneWidth naturalWidth in
  let c := Double.centerX obj in
  Double.inZone zone_right width obj = (c <? width / 3) /\
  Double.inZone zone_left width obj = (2 * width / 3 <? c) /\
  Double.inZone zone_front width obj
    = (width / 3 <=? c) && (c <=? 2 * width / 3) /\
  ((Double.inZone zone_right width obj = true
      /\ Double.inZone zone_left width obj = false
      /\ Double.inZone zone_front width obj = false) \/
   (Double.inZone zone_right width obj = false
      /\ Double.inZone zone_left width obj = true
      /\ Double.inZone zone_front width obj = false) \/
   (Double.inZone zone_right width obj = false
      /\ Double.inZone zone_left width obj = false
      /\ Double.inZone zone_front width obj = true)).
Proof.
  intros Hb H1 H2 Hw width c.
  rewrite inZone_right_test, inZone_left_test, inZone_front_test. fold c.
  repeat (split; [reflexivity |]).
  apply exactly_one_test.
  - exact (centerX_not_nan obj x1 y1 x2 y2 Hb H1 H2).
  - unfold width. destruct naturalWidth as [w |]; [| reflexivity].
    apply orb_prop in Hw. destruct Hw as [Hw | Hw].
    + rewrite (zoneWidth_zero_double _ Hw). reflexivity.
    + rewrite (zoneWidth_pixels _ Hw). apply thirds_ordered_double, Hw.
Qed.

(** C10, at width 600 and centre 200: the object is in the FRONT zone only. *)
Lemma zone_tests_exactly_one_witness :
  let obj := {| Double.label := "chair"; Double.confidence := 0.5;
                Double.bounding_box := (150, 0, 250, 100) |} in
  Double.inZone zone_right (Double.zoneWidth (Some 600)) obj = false /\
  Double.inZone zone_left (Double.zoneWidth (Some 600)) obj = false /\
  Double.inZone zone_front (Double.zoneWidth (Some 600)) obj = true.
Proof.
  intro obj.
  destruct (zone_tests_exactly_one obj (Some 600) 150 0 250 100)
    as (_ & _ & _ & H); try reflexivity.
  destruct H as [(H & _) | [(_ & H & _) | H]];
    [discriminate H | discriminate H | exact H].
Defined.

(** C10 fails as worded, twice.  For the exact thirds of the width the
    predicates are not the tests of the code: in a 640 pixel wide image the
    centre 426.6666666666667 lies strictly above 2*640/3 and the object is
    FRONT, not LEFT.  And not every box is in a zone: the centre of a box from
    [Infinity] to [-Infinity] (what [JSON.parse] makes of 1e999 and -1e999)
    is [NaN], every comparison with it is false and the object is in none of
    the three zones. *)
Lemma zone_predicates_do_not_partition :
  let obj := {| Double.label := "chair"; Double.confidence := 0.5;
                Double.bounding_box := (0x1.aaaaaaaaaaaabp+8, 0,
                                        0x1.aaaaaaaaaaaabp+8, 100) |} in
  let lost := {| Double.label := "chair"; Double.confidence := 0.5;
                 Double.bounding_box := (infinity, 0, neg_infinity, 100) |} in
  Double.value (Double.centerX obj)
    = Some (7505999378950827 # 17592186044416)%Q /\
  (2 * 640 / 3 < 7505999378950827 # 17592186044416)%Q /\
  Double.inZone zone_left 640 obj = false /\
  Double.inZone zone_front 640 obj = true /\
  Double.inZone zone_right 640 lost = false /\
  Double.inZone zone_left 640 lost = false /\
  Double.inZone zone_front 640 lost = false.
Proof. repeat split; reflexivity. Qed.

End ZoneClaims.

(** ** Navigation decision engine *)

(** C7. Empty-input decision.  Applied to the empty object sequence, with no
    object in any zone, the decision engine returns
    {FORWARD, SAFE, "Clear path ahead. Safe to proceed.",
    "No obstacles detected"}. *)
Theorem decide_empty_is_clear_path
    (r : option ProcessingResult) (nw : option Q) :
  getObjectsInZone r nw zone_left = [] ->
  getObjectsInZone r nw zone_front = [] ->
  getObjectsInZone r nw zone_right = [] ->
  generateNavigationInstructions r nw [] =
  {| direction := dir_forward; priority := safe;
     message := "Clear path ahead. Safe to proceed.";
     reason := "No obstacles detected" |}.
Proof.
  intros Hl Hf Hr. unfold generateNavigationInstructions.
  rewrite Hl, Hf, Hr. reflexivity.
Qed.

(** C7, with the held result carrying the empty object list. *)
Lemma decide_empty_is_clear_path_witness :
  generateNavigationInstructions (Some (Scenario.resultOf [])) (Some 640%Q) []
  = Scenario.clearPath.
Proof.
  apply (decide_empty_is_clear_path (Some (Scenario.resultOf [])) (Some 640%Q));
    reflexivity.
Defined.

(** When the captured result holds the very objects passed, the scenarios C
    and D give the documented instructions. *)
Lemma decide_scenarios_on_matching_result :
  generateNavigationInstructions (Some (Scenario.resultOf Scenario.objectsC))
    (Some 640%Q) Scenario.objectsC = Scenario.stayLeft /\
  generateNavigationInstructions (Some (Scenario.resultOf Scenario.objectsD))
    (Some 640%Q) Scenario.objectsD = Scenario.stopAll.
Proof. split; vm_compute; reflexivity. Qed.

(** The zone lists are empty when no result is captured, whatever the
    objects passed. *)
Lemma decide_without_result (nw : option Q) (objects : list DetectedObject) :
  generateNavigationInstructions None nw objects = Scenario.clearPath.
Proof. reflexivity. Qed.

(** ** Scheduler: general facts *)

Lemma st_autoProcessEffect (before : State) (w : World) :
  st (autoProcessEffect before w) = st w.
Proof. unfold autoProcessEffect. destruct (_ && _); reflexivity. Qed.

Lemma pending_autoProcessEffect (before : State) (w : World) :
  pending (autoProcessEffect before w) = pending w.
Proof. unfold autoProcessEffect. destruct (_ && _); reflexivity. Qed.

Lemma frameTimer_autoProcessEffect (before : State) (w : World) :
  frameTimer (autoProcessEffect before w) = frameTimer w.
Proof. unfold autoProcessEffect. destruct (_ && _); reflexivity. Qed.

Lemma st_step (w : World) (e : Event) : st (step w e) = st (handle w e).
Proof. apply st_autoProcessEffect. Qed.

Lemma pending_step (w : World) (e : Event) :
  pending (step w e) = pending (handle w e).
Proof. apply pending_autoProcessEffect. Qed.

Lemma st_step_resolve (w : World) (i : nat) (o : ProcessOutcome) closure :
  nth_error (pending w) i = Some closure ->
  st (step w (Resolve i o)) =
  processFrame_resume closure (naturalWidth w) o (st w).
Proof. intro H. rewrite st_step. unfold handle. rewrite H. reflexivity. Qed.

Lemma run_app (w : World) (es1 es2 : list Event) :
  run w (es1 ++ es2)%list = run (run w es1) es2.
Proof. apply fold_left_app. Qed.

Lemma reachable_step (w : World) (e : Event) :
  reachable w -> reachable (step w e).
Proof.
  intros [es ->]. exists (es ++ [e])%list. rewrite run_app. reflexivity.
Qed.

(** A property of the initial world kept by every step holds of every
    reachable world. *)
Lemma reachable_ind (P : World -> Prop) :
  P initialWorld ->
  (forall w e, P w -> P (step w e)) ->
  forall w, reachable w -> P w.
Proof.
  intros H0 Hstep w [es ->].
  induction es as [| e es IH] using rev_ind.
  - exact H0.
  - rewrite run_app. simpl. apply Hstep, IH.
Qed.

(** [processFrame] never writes the camera, auto-process, voice or frame
    counter variables. *)
Lemma processFrame_resume_frame closure nw o s :
  let s' := processFrame_resume closure nw o s in
  isCameraRunning s' = isCameraRunning s /\
  autoProcess s' = autoProcess s /\
  voiceEnabled s' = voiceEnabled s /\
  frameCount s' = frameCount s /\
  isProcessing s' = false.
Proof.
  destruct o as [d | detail | err]; simpl;
    [| repeat split; reflexivity ..].
  destruct (extractResult d) as [r |]; simpl; [| repeat split; reflexivity].
  destruct (findAnnotatedImage d) as [[| c img] |];
    destruct (detected_objects r) as [[| o1 rest] |]; simpl;
    repeat split; reflexivity.
Qed.

(** What a successful answer with a recognised envelope does to the state. *)
Lemma processFrame_resume_accepted closure nw d r s :
  extractResult d = Some r ->
  let s' := processFrame_resume closure nw (ResponseOk d) s in
  result s' = Some r /\ error s' = "" /\
  navigationInstructions s' =
    match detected_objects r with
    | Some (o1 :: rest) =>
        Some (generateNavigationInstructions (result closure) nw (o1 :: rest))
    | _ => None
    end.
Proof.
  intro H. simpl. rewrite H.
  destruct (findAnnotatedImage d) as [[| c img] |];
    destruct (detected_objects r) as [[| o1 rest] |]; simpl;
    repeat split; reflexivity.
Qed.

(** What a successful answer with an unrecognised envelope does. *)
Lemma processFrame_resume_rejected closure nw d s :
  extractResult d = None ->
  processFrame_resume closure nw (ResponseOk d) s =
  setIsProcessing false
    (setIsProcessing false (setError "Invalid API response structure" s)).
Proof. intro H. simpl. rewrite H. reflexivity. Qed.

(** ** Instruction presence *)

Lemma processFrame_resume_invariant closure nw o s :
  instructionInvariant s ->
  instructionInvariant (processFrame_resume closure nw o s).
Proof.
  unfold instructionInvariant, holdsInstruction. intro H.
  destruct o as [d | detail | err]; simpl; auto.
  destruct (extractResult d) as [r |]; simpl; auto.
  destruct (findAnnotatedImage d) as [[| c img] |];
    destruct (detected_objects r) as [[| o1 rest] |] eqn:E;
    simpl; rewrite ?E; reflexivity.
Qed.

Lemma processFrame_begin_invariant closure w :
  instructionInvariant (st w) ->
  instructionInvariant (st (processFrame_begin closure w)).
Proof.
  unfold processFrame_begin. destruct (negb (isCameraRunning closure)); auto.
Qed.

Lemma step_invariant (w : World) (e : Event) :
  instructionInvariant (st w) -> instructionInvariant (st (step w e)).
Proof.
  intro H. rewrite st_step.
  destruct e; simpl; auto.
  - destruct (frameTimer w); auto.
  - reflexivity.
  - destruct (isCameraRunning (st w)); auto.
  - destruct (negb (isCameraRunning (st w)) || isProcessing (st w)
              || autoProcess (st w)); auto using processFrame_begin_invariant.
  - destruct (processTimer w); auto using processFrame_begin_invariant.
  - destruct (nth_error (pending w) i); auto.
    simpl. apply processFrame_resume_invariant, H.
Qed.

(** C6. Instruction presence.  In every reachable state a navigation
    instruction is held exactly when the held result is present and has at
    least one detected object; and applying an accepted result without
    detected objects leaves no instruction held. *)
Theorem instruction_presence_invariant (w : World) :
  reachable w ->
  holdsInstruction (st w) = hasObjects (result (st w)) /\
  (forall i closure d r,
      nth_error (pending w) i = Some closure ->
      extractResult d = Some r ->
      hasObjects (Some r) = false ->
      let w' := step w (Resolve i (ResponseOk d)) in
      result (st w') = Some r /\ navigationInstructions (st w') = None).
Proof.
  intro Hr. split.
  - revert w Hr. apply reachable_ind.
    + reflexivity.
    + intros w e. apply step_invariant.
  - intros i closure d r Hp Hx Hobj w'. unfold w'.
    rewrite (st_step_resolve _ _ _ _ Hp).
    destruct (processFrame_resume_accepted closure (naturalWidth w) d r (st w) Hx)
      as (H1 & _ & H3).
    split; [exact H1 |]. rewrite H3.
    simpl in Hobj. destruct (detected_objects r) as [[| o1 rest] |];
      [reflexivity | discriminate | reflexivity].
Qed.

(** C6, after one processed frame with a chair and a second request in
    flight: an instruction is held, and the answer with an empty object list
    clears it. *)
Lemma instruction_presence_invariant_witness :
  let w := run initialWorld
             [StartCameraOk; ClickProcess;
              Resolve 0 (ResponseOk (Scenario.wrapped Scenario.objectsC));
              ClickProcess] in
  let w' := step w (Resolve 0 (ResponseOk (Scenario.wrapped []))) in
  holdsInstruction (st w) = true /\
  hasObjects (result (st w)) = true /\
  result (st w') = Some (Scenario.resultOf []) /\
  navigationInstructions (st w') = None.
Proof.
  intros w w'.
  destruct (instruction_presence_invariant w) as [H1 H2].
  - exists [StartCameraOk; ClickProcess;
            Resolve 0 (ResponseOk (Scenario.wrapped Scenario.objectsC));
            ClickProcess].
    reflexivity.
  - split; [reflexivity |]. split; [rewrite <- H1; reflexivity |].
    apply (H2 0%nat (st (run initialWorld
                           [StartCameraOk; ClickProcess;
                            Resolve 0 (ResponseOk
                                         (Scenario.wrapped Scenario.objectsC))]))
              (Scenario.wrapped []) (Scenario.resultOf []));
      reflexivity.
Defined.

(** ** Envelope normalisation *)

(** C9, as the code has it.  Envelope normalisation with atomic failure.
    When a pending request resolves with a 2xx answer: an envelope with an
    object under the [data] key makes that object the held result, whatever
    fields it has; a flat envelope (no [data] key, a non-empty [caption] and
    a [detected_objects] key) makes the answer itself the held result; any
    other envelope sets the error "Invalid API response structure" and
    leaves the held result, the held instruction and the annotated image as
    they were. *)
Theorem envelope_normalization (w : World) (i : nat) (closure : State)
    (d : ApiResponse) :
  nth_error (pending w) i = Some closure ->
  let w' := step w (Resolve i (ResponseOk d)) in
  (forall r, data d = Some r ->
     result (st w') = Some r /\ error (st w') = "") /\
  (data d = None ->
   Js.truthy_string (caption (body d)) = true ->
   detected_objects (body d) <> None ->
     result (st w') = Some (body d) /\ error (st w') = "") /\
  (data d = None ->
   Js.truthy_string (caption (body d)) = false \/
   detected_objects (body d) = None ->
     error (st w') = "Invalid API response structure" /\
     result (st w') = result (st w) /\
     navigationInstructions (st w') = navigationInstructions (st w) /\
     annotatedImage (st w') = annotatedImage (st w) /\
     isProcessing (st w') = false).
Proof.
  intros Hp w'. unfold w'. rewrite (st_step_resolve _ _ _ _ Hp).
  split; [| split].
  - intros r Hd.
    assert (Hx : extractResult d = Some r) by (unfold extractResult; now rewrite Hd).
    destruct (processFrame_resume_accepted closure (naturalWidth w) d r (st w) Hx)
      as (H1 & H2 & _).
    split; assumption.
  - intros Hd Hc Ho.
    assert (Hx : extractResult d = Some (body d)).
    { unfold extractResult. rewrite Hd, Hc.
      destruct (detected_objects (body d)); [reflexivity | congruence]. }
    destruct (processFrame_resume_accepted closure (naturalWidth w) d _ (st w) Hx)
      as (H1 & H2 & _).
    split; assumption.
  - intros Hd Hbad.
    assert (Hx : extractResult d = None).
    { unfold extractResult. rewrite Hd.
      destruct Hbad as [Hc | Ho]; [rewrite Hc | rewrite Ho]; simpl;
        [| rewrite andb_false_r]; reflexivity. }
    rewrite (processFrame_resume_rejected _ _ _ _ Hx).
    repeat split; reflexivity.
Qed.

(** C9, on a request in flight while a chair result is held: a wrapped and a
    flat answer with a person replace the result, an answer of another shape
    leaves the chair result in place. *)
Lemma envelope_normalization_witness :
  let w := run initialWorld
             [StartCameraOk; ClickProcess;
              Resolve 0 (ResponseOk (Scenario.wrapped Scenario.objectsC));
              ClickProcess] in
  let person := [Scenario.box "person" 300 340] in
  result (st (step w (Resolve 0 (ResponseOk (Scenario.wrapped person)))))
    = Some (Scenario.resultOf person) /\
  result (st (step w (Resolve 0 (ResponseOk (Scenario.flat person)))))
    = Some (Scenario.resultOf person) /\
  result (st (step w (Resolve 0 (ResponseOk Scenario.other))))
    = Some (Scenario.resultOf Scenario.objectsC) /\
  error (st (step w (Resolve 0 (ResponseOk Scenario.other))))
    = "Invalid API response structure".
Proof.
  intros w person.
  assert (Hp : nth_error (pending w) 0 = Some (st (run initialWorld
            [StartCameraOk; ClickProcess;
             Resolve 0 (ResponseOk (Scenario.wrapped Scenario.objectsC))])))
    by reflexivity.
  split; [| split; [| split]].
  - apply (envelope_normalization w 0 _ (Scenario.wrapped person) Hp).
    reflexivity.
  - apply (envelope_normalization w 0 _ (Scenario.flat person) Hp);
      [reflexivity | reflexivity | discriminate].
  - apply (envelope_normalization w 0 _ Scenario.other Hp);
      [reflexivity | left; reflexivity].
  - apply (envelope_normalization w 0 _ Scenario.other Hp);
      [reflexivity | left; reflexivity].
Defined.

(** C9 fails as worded, on a request in flight while a chair result is held.
    A flat envelope that carries every result field is refused when its
    caption is the empty string: the error is set and the chair result stays.
    An envelope that wraps an object with none of the result fields,
    [{ "data": {} }], is accepted without an error: the empty object
    replaces the chair result and the held instruction is dropped. *)
Lemma envelope_is_tested_by_truthiness :
  let w := run initialWorld
             [StartCameraOk; ClickProcess;
              Resolve 0 (ResponseOk (Scenario.wrapped Scenario.objectsC));
              ClickProcess] in
  let person := [Scenario.box "person" 300 340] in
  let flatNoCaption :=
    {| data := None;
       body := {| caption := Some ""; detected_objects := Some person;
                  guidance := Some "Path is clear.";
                  model_used := Some "gpt2-mini-fusion";
                  fusion_enabled := Some true;
                  llm_description := Some "a person";
                  attention_stats := None;
                  annotated_image_base64 := None;
                  annotated_image := None |} |} in
  let wrappedEmpty :=
    {| data := Some Scenario.emptyObject; body := Scenario.emptyObject |} in
  result (st w) = Some (Scenario.resultOf Scenario.objectsC) /\
  navigationInstructions (st w) <> None /\
  error (st (step w (Resolve 0 (ResponseOk flatNoCaption))))
    = "Invalid API response structure" /\
  result (st (step w (Resolve 0 (ResponseOk flatNoCaption))))
    = Some (Scenario.resultOf Scenario.objectsC) /\
  error (st (step w (Resolve 0 (ResponseOk wrappedEmpty)))) = "" /\
  result (st (step w (Resolve 0 (ResponseOk wrappedEmpty))))
    = Some Scenario.emptyObject /\
  navigationInstructions (st (step w (Resolve 0 (ResponseOk wrappedEmpty))))
    = None.
Proof. repeat split; try reflexivity. discriminate. Qed.

(** ** Stopping the camera *)

Lemma st_step_stop (w : World) :
  st (step w StopCameraOk) = stopCamera_resume (st w).
Proof. rewrite st_step. reflexivity. Qed.

Lemma pending_step_stop (w : World) :
  pending (step w StopCameraOk) = pending w.
Proof. rewrite pending_step. reflexivity. Qed.

(** C8, as the code has it.  Stopping the camera sets the camera-running
    flag and the auto-process flag to false, the frame counter to 0 and the
    held result, instruction and annotated image to absent, which are their
    initial values; the voice-enabled flag keeps its value. *)
Theorem stop_resets_all_but_voice (w : World) :
  let s' := st (step w StopCameraOk) in
  isCameraRunning s' = isCameraRunning initialState /\
  autoProcess s' = autoProcess initialState /\
  result s' = result initialState /\
  navigationInstructions s' = navigationInstructions initialState /\
  frameCount s' = frameCount initialState /\
  annotatedImage s' = annotatedImage initialState /\
  voiceEnabled s' = voiceEnabled (st w).
Proof. intro s'. unfold s'. rewrite st_step_stop. repeat split. Qed.

(** C8 as stated fails: with voice guidance switched on, the voice-enabled
    flag is still on after the stop, while its initial value is off. *)
Lemma stop_keeps_voice_enabled :
  let w := run initialWorld [ToggleVoice true; StartCameraOk] in
  voiceEnabled (st (step w StopCameraOk)) = true /\
  voiceEnabled initialState = false /\
  st (step w StopCameraOk) <> initialState.
Proof.
  intro w. split; [reflexivity |]. split; [reflexivity |].
  intro H. apply (f_equal voiceEnabled) in H. discriminate H.
Qed.

(** C2, as the code has it.  When [stopCamera] completes while a processing
    request is in flight, the stop clears the held result and instruction and
    leaves the request pending; when that request then resolves with a
    recognised envelope its result is applied although the camera is off:
    the held result is the answer's, and an instruction is held exactly when
    the answer has a detected object. *)
Theorem late_result_is_applied (w : World) (i : nat) (closure : State)
    (d : ApiResponse) (r : ProcessingResult) :
  nth_error (pending w) i = Some closure ->
  extractResult d = Some r ->
  let w1 := step w StopCameraOk in
  let w2 := step w1 (Resolve i (ResponseOk d)) in
  (result (st w1) = None /\ navigationInstructions (st w1) = None /\
   nth_error (pending w1) i = Some closure) /\
  (isCameraRunning (st w2) = false /\
   result (st w2) = Some r /\
   holdsInstruction (st w2) = hasObjects (Some r)).
Proof.
  intros Hp Hx w1 w2.
  assert (Hp1 : nth_error (pending w1) i = Some closure).
  { unfold w1. rewrite pending_step_stop. exact Hp. }
  split.
  - unfold w1 at 1 2. rewrite st_step_stop. repeat split. exact Hp1.
  - unfold w2. rewrite (st_step_resolve _ _ _ _ Hp1).
    destruct (processFrame_resume_frame closure (naturalWidth w1)
                (ResponseOk d) (st w1)) as (Hc & _).
    destruct (processFrame_resume_accepted closure (naturalWidth w1) d r
                (st w1) Hx) as (H1 & _ & H3).
    split; [| split].
    + rewrite Hc. unfold w1. rewrite st_step_stop. reflexivity.
    + exact H1.
    + unfold holdsInstruction. rewrite H3. simpl.
      destruct (detected_objects r) as [[| o1 rest] |]; reflexivity.
Qed.

(** C2, on a manual request answered after the stop. *)
Lemma late_result_is_applied_witness :
  let w := run initialWorld [StartCameraOk; ClickProcess] in
  let w1 := step w StopCameraOk in
  let w2 := step w1 (Resolve 0 (ResponseOk (Scenario.wrapped Scenario.objectsC))) in
  (result (st w1) = None /\ navigationInstructions (st w1) = None /\
   nth_error (pending w1) 0 = Some (st (run initialWorld [StartCameraOk]))) /\
  (isCameraRunning (st w2) = false /\
   result (st w2) = Some (Scenario.resultOf Scenario.objectsC) /\
   holdsInstruction (st w2) = hasObjects (Some (Scenario.resultOf Scenario.objectsC))).
Proof.
  intros w w1 w2.
  apply (late_result_is_applied w 0 (st (run initialWorld [StartCameraOk]))
           (Scenario.wrapped Scenario.objectsC)
           (Scenario.resultOf Scenario.objectsC));
    reflexivity.
Defined.

(** C2 as stated fails: the camera is stopped while a request is in flight,
    the request then resolves, and a result and an instruction are held. *)
Lemma late_result_not_discarded :
  let w := run initialWorld
             [StartCameraOk; ClickProcess; StopCameraOk;
              Resolve 0 (ResponseOk (Scenario.wrapped Scenario.objectsC))] in
  isCameraRunning (st w) = false /\
  result (st w) = Some (Scenario.resultOf Scenario.objectsC) /\
  navigationInstructions (st w) = Some Scenario.clearPath.
Proof. repeat split. Qed.

(** ** Auto-process timer *)

(** No handler touches the auto-process timer: only the effect does. *)
Lemma processTimer_handle (w : World) (e : Event) :
  processTimer (handle w e) = processTimer w.
Proof.
  destruct e; simpl; try reflexivity.
  - destruct (frameTimer w); reflexivity.
  - destruct (isCameraRunning (st w)); reflexivity.
  - unfold processFrame_begin.
    destruct (_ || _); [reflexivity |].
    destruct (negb _); reflexivity.
  - destruct (processTimer w) as [c |] eqn:E; [| exact E].
    unfold processFrame_begin. destruct (negb _); exact E.
  - destruct (nth_error (pending w) i); reflexivity.
Qed.

(** The render captured by a live auto-process timer has the camera running
    and auto-process enabled. *)
Lemma processTimer_closure (w : World) :
  reachable w ->
  forall closure, processTimer w = Some closure ->
    isCameraRunning closure = true /\ autoProcess closure = true.
Proof.
  revert w.
  apply (reachable_ind (fun w => forall closure,
           processTimer w = Some closure ->
           isCameraRunning closure = true /\ autoProcess closure = true)).
  - discriminate.
  - intros w e IH closure. unfold step, autoProcessEffect.
    destruct (_ && _).
    + rewrite processTimer_handle. apply IH.
    + simpl. destruct (autoProcess (st (handle w e))) eqn:Ea;
        destruct (isCameraRunning (st (handle w e))) eqn:Ec; simpl;
        try discriminate.
      intro H. injection H as <-. split; assumption.
Qed.

(** A tick of a live auto-process timer issues a request whether or not one
    is pending. *)
Lemma auto_tick_unguarded (w : World) (closure : State) :
  reachable w ->
  processTimer w = Some closure ->
  pending (step w AutoTick) = (pending w ++ [closure])%list.
Proof.
  intros Hr Ht. destruct (processTimer_closure w Hr closure Ht) as [Hc _].
  rewrite pending_step. simpl. rewrite Ht. unfold processFrame_begin.
  rewrite Hc. reflexivity.
Qed.

(** The manual trigger does nothing while a request is pending. *)
Lemma manual_click_guarded (w : World) :
  isProcessing (st w) = true -> step w ClickProcess = w.
Proof.
  intro H. unfold step. simpl. rewrite H, orb_true_r. simpl.
  unfold autoProcessEffect. rewrite !Bool.eqb_reflx. reflexivity.
Qed.

(** C1 fails on the code.  With the camera running and auto-process on, the
    first tick issues a request; at the second tick that request is still
    pending ([isProcessing] holds) and a second request is issued: two
    requests are in flight.  When the first of them is answered,
    [isProcessing] is reset although the second is still pending. *)
Theorem auto_tick_overlaps_pending_request :
  let w1 := run initialWorld [StartCameraOk; ToggleAutoProcess true; AutoTick] in
  let w2 := step w1 AutoTick in
  let w3 := step w2 (Resolve 0 (ResponseOk (Scenario.wrapped []))) in
  isCameraRunning (st w1) = true /\ autoProcess (st w1) = true /\
  isProcessing (st w1) = true /\ List.length (pending w1) = 1%nat /\
  List.length (pending w2) = 2%nat /\
  isProcessing (st w3) = false /\ List.length (pending w3) = 1%nat.
Proof. repeat split. Qed.

(** ** Stale result in the decision engine *)

(** An answer to a request made while no result was held yields the
    clear-path instruction, whatever objects it carries. *)
Lemma answer_without_held_result (w : World) (i : nat) (closure : State)
    (d : ApiResponse) (r : ProcessingResult) (o1 : DetectedObject)
    (rest : list DetectedObject) :
  nth_error (pending w) i = Some closure ->
  result closure = None ->
  extractResult d = Some r ->
  detected_objects r = Some (o1 :: rest) ->
  navigationInstructions (st (step w (Resolve i (ResponseOk d)))) =
  Some Scenario.clearPath.
Proof.
  intros Hp Hc Hx Ho. rewrite (st_step_resolve _ _ _ _ Hp).
  destruct (processFrame_resume_accepted closure (naturalWidth w) d r (st w) Hx)
    as (_ & _ & H3).
  rewrite H3, Ho, Hc. reflexivity.
Qed.

(** C3 fails on the code.  The first answer after the camera started, with
    the scenario C chair on a 640 pixel wide frame, yields the clear-path
    instruction and not {LEFT, CAUTION, "Obstacle on right. Stay left.",
    "Right side: chair"}: the zones are taken from the result of the render
    the call was made from, which is absent.  So does the scenario D answer,
    instead of STOP.  A scenario D answer that follows a scenario C answer
    yields the scenario C instruction. *)
Theorem first_answer_ignores_objects :
  let started := [StartCameraOk; StartFrameStreaming; FrameLoaded 640%Q] in
  let answer objs := Resolve 0 (ResponseOk (Scenario.wrapped objs)) in
  let wC := run initialWorld
              (started ++ [ClickProcess; answer Scenario.objectsC])%list in
  let wD := run initialWorld
              (started ++ [ClickProcess; answer Scenario.objectsD])%list in
  let wCD := run wC [ClickProcess; answer Scenario.objectsD] in
  (generateNavigationInstructions None (Some 640%Q) Scenario.objectsC
     = Scenario.clearPath /\
   generateNavigationInstructions None (Some 640%Q) Scenario.objectsD
     = Scenario.clearPath /\
   Scenario.clearPath <> Scenario.stayLeft /\
   Scenario.clearPath <> Scenario.stopAll) /\
  (naturalWidth wC = Some 640%Q /\
   result (st wC) = Some (Scenario.resultOf Scenario.objectsC) /\
   navigationInstructions (st wC) = Some Scenario.clearPath) /\
  (result (st wD) = Some (Scenario.resultOf Scenario.objectsD) /\
   navigationInstructions (st wD) = Some Scenario.clearPath) /\
  (result (st wCD) = Some (Scenario.resultOf Scenario.objectsD) /\
   navigationInstructions (st wCD) = Some Scenario.stayLeft).
Proof.
  cbv zeta. repeat split; try reflexivity; discriminate.
Qed.

(** ** Zero image width *)

Lemma zoneWidth_zero : zoneWidth (Some 0%Q) = 640%Q.
Proof. reflexivity. Qed.




(** * Further properties of the component *)

(** ** Zone classifier *)



(** ** Navigation decision engine *)

Lemma is_empty_filter_nil {A} (f : A -> bool) (l : list A) :
  l = [] -> filter f l = [].
Proof. intros ->. reflexivity. Qed.

Ltac decide_cases r nw :=
  unfold generateNavigationInstructions, dangerIn;
  let lo := fresh "lo" in let ro := fresh "ro" in
  let ld := fresh "ld" in let fd := fresh "fd" in let rd := fresh "rd" in
  remember (filter isDangerous (getObjectsInZone r nw zone_left)) as ld eqn:Hld;
  remember (filter isDangerous (getObjectsInZone r nw zone_front)) as fd eqn:Hfd;
  remember (filter isDangerous (getObjectsInZone r nw zone_right)) as rd eqn:Hrd;
  remember (getObjectsInZone r nw zone_left) as lo eqn:Hlo;
  remember (getObjectsInZone r nw zone_right) as ro eqn:Hro;
  destruct fd, ld, rd, lo, ro; simpl in *.

(** X3. The instruction never sends the user towards a zone in which the
    captured result has a dangerous object: LEFT is given only when the left
    zone has none, RIGHT only when the right zone has none, FORWARD only
    when the front zone has none. *)
Theorem never_steers_into_obstacle (r : option ProcessingResult)
    (nw : option Q) (objects : list DetectedObject) :
  let i := generateNavigationInstructions r nw objects in
  (direction i = dir_left -> dangerIn r nw zone_left = []) /\
  (direction i = dir_right -> dangerIn r nw zone_right = []) /\
  (direction i = dir_forward -> dangerIn r nw zone_front = []).
Proof.
  decide_cases r nw; repeat split; intros; congruence.
Qed.

(** X4. STOP and DANGER go together, and are given exactly when the captured
    result has a dangerous object in each of the three zones. *)
Theorem danger_iff_all_zones_blocked (r : option ProcessingResult)
    (nw : option Q) (objects : list DetectedObject) :
  let i := generateNavigationInstructions r nw objects in
  (priority i = danger <-> direction i = dir_stop) /\
  (priority i = danger <->
   dangerIn r nw zone_left <> [] /\ dangerIn r nw zone_front <> [] /\
   dangerIn r nw zone_right <> []).
Proof.
  decide_cases r nw; repeat split; intros; try congruence;
    try (match goal with H : _ /\ _ /\ _ |- _ => destruct H as (? & ? & ?) end;
         congruence).
Qed.

(** X5. SAFE is given exactly when the captured result has no dangerous
    object in front and no object at all in the left and right zones; the
    instruction is then the clear-path one. *)
Theorem safe_iff_sides_empty (r : option ProcessingResult)
    (nw : option Q) (objects : list DetectedObject) :
  let i := generateNavigationInstructions r nw objects in
  (priority i = safe <->
   dangerIn r nw zone_front = [] /\
   getObjectsInZone r nw zone_left = [] /\
   getObjectsInZone r nw zone_right = []) /\
  (priority i = safe -> i = Scenario.clearPath).
Proof.
  decide_cases r nw; repeat split; intros; try reflexivity; try congruence;
    try (match goal with H : _ /\ _ /\ _ |- _ => destruct H as (? & ? & ?) end;
         congruence).
Qed.

Lemma getObjectsInZone_held (r : option ProcessingResult) (nw : option Q)
    (zone : Zone) (obj : DetectedObject) :
  In obj (getObjectsInZone r nw zone) -> In obj (heldObjects r).
Proof.
  unfold getObjectsInZone, heldObjects.
  destruct r as [res |]; [| intros []].
  destruct (detected_objects res) as [objs |]; [| intros []].
  intro H. apply filter_In in H. apply H.
Qed.

Lemma filter_none {A} (f : A -> bool) (l : list A) :
  (forall x, In x l -> f x = false) -> filter f l = [].
Proof.
  induction l as [| a l IH]; intro H; [reflexivity |].
  simpl. rewrite (H a (or_introl eq_refl)). apply IH.
  intros x Hx. apply H. right. exact Hx.
Qed.

Lemma dangerIn_harmless (r : option ProcessingResult) (nw : option Q)
    (zone : Zone) :
  (forall obj, In obj (heldObjects r) -> isDangerous obj = false) ->
  dangerIn r nw zone = [].
Proof.
  intro H. apply filter_none. intros obj Hobj.
  apply H. apply (getObjectsInZone_held r nw zone obj Hobj).
Qed.

(** X6. When no object of the captured result has a dangerous label, the
    instruction is FORWARD and is either the clear-path one or "Proceed with
    caution" with the first three labels of the objects passed: never STOP,
    never DANGER, never a turn. *)
Theorem harmless_objects_go_forward (r : option ProcessingResult)
    (nw : option Q) (objects : list DetectedObject) :
  (forall obj, In obj (heldObjects r) -> isDangerous obj = false) ->
  let i := generateNavigationInstructions r nw objects in
  direction i = dir_forward /\
  (i = Scenario.clearPath \/
   i = {| direction := dir_forward; priority := caution;
          message := "Proceed with caution. Objects nearby.";
          reason := "Detected: " ++ labels (firstn 3 objects) |}).
Proof.
  intros H i. unfold i, generateNavigationInstructions.
  fold (dangerIn r nw zone_left). fold (dangerIn r nw zone_front).
  fold (dangerIn r nw zone_right).
  rewrite !(dangerIn_harmless r nw _ H). simpl.
  destruct (is_empty (getObjectsInZone r nw zone_left)
            && is_empty (getObjectsInZone r nw zone_right));
    split; auto.
Qed.

(** X6, on a dog in front and a cup to the right. *)
Lemma harmless_objects_go_forward_witness :
  let objs := [Scenario.box "dog" 300 340; Scenario.box "cup" 100 200] in
  let i := generateNavigationInstructions (Some (Scenario.resultOf objs))
             (Some 640%Q) objs in
  direction i = dir_forward /\
  (i = Scenario.clearPath \/
   i = {| direction := dir_forward; priority := caution;
          message := "Proceed with caution. Objects nearby.";
          reason := "Detected: " ++ labels (firstn 3 objs) |}).
Proof.
  intros objs.
  apply (harmless_objects_go_forward (Some (Scenario.resultOf objs))
           (Some 640%Q) objs).
  intros obj [<- | [<- | []]]; reflexivity.
Defined.

(** ** Scheduler invariants *)

Lemma handle_flags_resolve (w : World) (i : nat) (o : ProcessOutcome) :
  isCameraRunning (st (handle w (Resolve i o))) = isCameraRunning (st w) /\
  autoProcess (st (handle w (Resolve i o))) = autoProcess (st w).
Proof.
  simpl. destruct (nth_error (pending w) i) as [c |]; [| split; reflexivity].
  destruct (processFrame_resume_frame c (naturalWidth w) o (st w))
    as (H1 & H2 & _).
  split; assumption.
Qed.

Lemma processFrame_begin_flags (c : State) (w : World) :
  isCameraRunning (st (processFrame_begin c w)) = isCameraRunning (st w) /\
  autoProcess (st (processFrame_begin c w)) = autoProcess (st w).
Proof.
  unfold processFrame_begin. destruct (negb _); split; reflexivity.
Qed.

(** X7. Auto-process is never on while the camera is off. *)
Theorem auto_process_needs_camera (w : World) :
  reachable w ->
  autoProcess (st w) = true -> isCameraRunning (st w) = true.
Proof.
  revert w.
  apply (reachable_ind (fun w => autoProcess (st w) = true ->
                                 isCameraRunning (st w) = true)).
  - discriminate.
  - intros w e IH. rewrite st_step.
    destruct e as [| err | | | width | | | checked | checked | | | i o].
    + reflexivity.
    + exact IH.
    + exact IH.
    + exact IH.
    + simpl. destruct (frameTimer w); exact IH.
    + discriminate.
    + exact IH.
    + simpl. destruct (isCameraRunning (st w)) eqn:E.
      * intros _. exact E.
      * rewrite E. exact IH.
    + exact IH.
    + simpl. destruct (_ || _); [exact IH |].
      destruct (processFrame_begin_flags (st w) w) as [-> ->]. exact IH.
    + simpl. destruct (processTimer w) as [c |]; [| exact IH].
      destruct (processFrame_begin_flags c w) as [-> ->]. exact IH.
    + destruct (handle_flags_resolve w i o) as [-> ->]. exact IH.
Qed.

(** X7, after the camera was started and auto-process switched on. *)
Lemma auto_process_needs_camera_witness :
  isCameraRunning
    (st (run initialWorld [StartCameraOk; ToggleAutoProcess true])) = true.
Proof.
  apply (auto_process_needs_camera
           (run initialWorld [StartCameraOk; ToggleAutoProcess true])).
  - exists [StartCameraOk; ToggleAutoProcess true]. reflexivity.
  - reflexivity.
Defined.

Lemma processTimer_none_iff (w : World) :
  reachable w ->
  (processTimer w = None <->
   autoProcess (st w) && isCameraRunning (st w) = false).
Proof.
  revert w.
  apply (reachable_ind (fun w => processTimer w = None <->
           autoProcess (st w) && isCameraRunning (st w) = false)).
  - split; reflexivity.
  - intros w e IH. unfold step, autoProcessEffect.
    destruct (Bool.eqb (autoProcess (st w)) (autoProcess (st (handle w e)))
              && Bool.eqb (isCameraRunning (st w))
                   (isCameraRunning (st (handle w e)))) eqn:E.
    + apply andb_true_iff in E. destruct E as [Ea Ec].
      apply eqb_prop in Ea. apply eqb_prop in Ec.
      rewrite processTimer_handle, <- Ea, <- Ec. exact IH.
    + simpl. destruct (autoProcess (st (handle w e))
                       && isCameraRunning (st (handle w e)));
        split; intro; congruence.
Qed.

(** X8. The auto-process timer is live exactly while the camera is running
    and auto-process is on, and the render its callback captured had both
    flags set. *)
Theorem auto_timer_live_iff_enabled (w : World) :
  reachable w ->
  (processTimer w = None <->
   autoProcess (st w) && isCameraRunning (st w) = false) /\
  (forall closure, processTimer w = Some closure ->
     isCameraRunning closure = true /\ autoProcess closure = true).
Proof.
  intro Hr. split; [apply processTimer_none_iff, Hr |].
  apply processTimer_closure, Hr.
Qed.

(** X8, with auto-process on: the timer is live. *)
Lemma auto_timer_live_iff_enabled_witness :
  processTimer (run initialWorld [StartCameraOk; ToggleAutoProcess true])
    <> None.
Proof.
  destruct (auto_timer_live_iff_enabled
              (run initialWorld [StartCameraOk; ToggleAutoProcess true]))
    as [H _].
  - exists [StartCameraOk; ToggleAutoProcess true]. reflexivity.
  - intro Hn. apply H in Hn. discriminate Hn.
Defined.

(** X9. Stopping the camera cancels both timers: in every reachable state,
    after [stopCamera] neither the display-refresh timer nor the auto-process
    timer is live. *)
Theorem stop_cancels_both_timers (w : World) :
  reachable w ->
  let w' := step w StopCameraOk in
  frameTimer w' = None /\ processTimer w' = None.
Proof.
  intros Hr w'. split.
  - unfold w', step. rewrite frameTimer_autoProcessEffect. reflexivity.
  - apply processTimer_none_iff; [apply reachable_step, Hr |].
    unfold w'. rewrite st_step_stop. reflexivity.
Qed.

(** X9, on a session with streaming and auto-process on. *)
Lemma stop_cancels_both_timers_witness :
  let w' := step (run initialWorld
                    [StartCameraOk; StartFrameStreaming; ToggleAutoProcess true])
              StopCameraOk in
  frameTimer w' = None /\ processTimer w' = None.
Proof.
  apply (stop_cancels_both_timers
           (run initialWorld
              [StartCameraOk; StartFrameStreaming; ToggleAutoProcess true])).
  exists [StartCameraOk; StartFrameStreaming; ToggleAutoProcess true].
  reflexivity.
Defined.

(** X10. Stopping is idempotent: a second [stopCamera] leaves the component
    exactly as the first one did. *)
Theorem stop_is_idempotent (w : World) :
  step (step w StopCameraOk) StopCameraOk = step w StopCameraOk.
Proof.
  unfold step, autoProcessEffect. simpl.
  destruct (autoProcess (st w)), (isCameraRunning (st w)); reflexivity.
Qed.

(** X11. The processing flag is never left on with nothing in flight: in
    every reachable state, if no request is pending then [isProcessing] is
    false. *)
Theorem idle_means_not_processing (w : World) :
  reachable w ->
  pending w = [] -> isProcessing (st w) = false.
Proof.
  revert w.
  apply (reachable_ind (fun w => pending w = [] -> isProcessing (st w) = false)).
  - reflexivity.
  - intros w e IH. rewrite st_step, pending_step.
    assert (Hbegin : forall c,
      pending (processFrame_begin c w) = [] ->
      isProcessing (st (processFrame_begin c w)) = false).
    { intro c. unfold processFrame_begin. destruct (negb _); simpl.
      - exact IH.
      - intro H. apply app_eq_nil in H. destruct H as [_ H]. discriminate H. }
    destruct e as [| err | | | width | | | checked | checked | | | i o];
      try exact IH.
    + simpl. destruct (frameTimer w); exact IH.
    + simpl. destruct (isCameraRunning (st w)); exact IH.
    + simpl. destruct (_ || _); [exact IH | apply Hbegin].
    + simpl. destruct (processTimer w) as [c |]; [apply Hbegin | exact IH].
    + simpl. destruct (nth_error (pending w) i) as [c |]; [| exact IH].
      intros _. simpl.
      apply (processFrame_resume_frame c (naturalWidth w) o (st w)).
Qed.

(** X11, once the only request was answered. *)
Lemma idle_means_not_processing_witness :
  isProcessing
    (st (run initialWorld
           [StartCameraOk; ClickProcess;
            Resolve 0 (ResponseOk (Scenario.wrapped Scenario.objectsC))]))
  = false.
Proof.
  apply (idle_means_not_processing
           (run initialWorld
              [StartCameraOk; ClickProcess;
               Resolve 0 (ResponseOk (Scenario.wrapped Scenario.objectsC))])).
  - exists [StartCameraOk; ClickProcess;
            Resolve 0 (ResponseOk (Scenario.wrapped Scenario.objectsC))].
    reflexivity.
  - reflexivity.
Defined.

Lemma remove_nth_single {A} (i : nat) (x y : A) :
  nth_error [x] i = Some y -> remove_nth i [x] = [].
Proof.
  destruct i as [| i]; [reflexivity |].
  simpl. destruct i; discriminate.
Qed.

Lemma manual_step_invariant (w : World) (e : Event) :
  switchesAutoOn e = false ->
  processTimer w = None /\ autoProcess (st w) = false /\
  (List.length (pending w) <= 1)%nat /\
  (pending w = [] <-> isProcessing (st w) = false) ->
  processTimer (step w e) = None /\ autoProcess (st (step w e)) = false /\
  (List.length (pending (step w e)) <= 1)%nat /\
  (pending (step w e) = [] <-> isProcessing (st (step w e)) = false).
Proof.
  intros He (Ht & Ha & Hl & Hp).
  assert (Hauto : autoProcess (st (handle w e)) = false).
  { destruct e as [| err | | | width | | | checked | checked | | | i o];
      try exact Ha; simpl.
    - destruct (frameTimer w); exact Ha.
    - reflexivity.
    - destruct checked; [discriminate He |].
      destruct (isCameraRunning (st w)); [reflexivity | exact Ha].
    - destruct (_ || _); [exact Ha |].
      destruct (processFrame_begin_flags (st w) w) as [_ ->]. exact Ha.
    - rewrite Ht. exact Ha.
    - destruct (handle_flags_resolve w i o) as [_ H]. simpl in H.
      rewrite H. exact Ha. }
  split; [| split; [rewrite st_step; exact Hauto |]].
  - unfold step, autoProcessEffect. destruct (_ && _).
    + rewrite processTimer_handle. exact Ht.
    + simpl. rewrite Hauto. reflexivity.
  - rewrite st_step, pending_step.
    destruct e as [| err | | | width | | | checked | checked | | | i o];
      try (split; assumption); simpl.
    + destruct (frameTimer w); split; assumption.
    + destruct (isCameraRunning (st w)); split; assumption.
    + destruct (negb (isCameraRunning (st w))) eqn:Er; simpl;
        [split; assumption |].
      destruct (isProcessing (st w)) eqn:Ep; simpl;
        [rewrite Ep; split; assumption |].
      rewrite Ha. simpl. unfold processFrame_begin. rewrite Er. simpl.
      assert (H0 : pending w = []) by (apply Hp; reflexivity).
      rewrite H0. simpl. split; [lia |]. split; discriminate.
    + rewrite Ht. split; assumption.
    + destruct (nth_error (pending w) i) as [c |] eqn:En;
        [| split; assumption].
      simpl.
      destruct (pending w) as [| x [| y rest]] eqn:Epend.
      * destruct i; discriminate En.
      * rewrite (remove_nth_single i x c En). simpl. split; [lia |].
        split; intros _; [| reflexivity].
        apply (processFrame_resume_frame c (naturalWidth w) o (st w)).
      * simpl in Hl. lia.
Qed.

(** X12. Manual processing is one request at a time: along any event
    sequence that never switches auto-process on, at most one processing
    request is in flight, and [isProcessing] holds exactly while one is. *)
Theorem manual_requests_never_overlap (es : list Event) :
  forallb (fun e => negb (switchesAutoOn e)) es = true ->
  let w := run initialWorld es in
  (List.length (pending w) <= 1)%nat /\
  (isProcessing (st w) = true <-> pending w <> []).
Proof.
  intros Hes w.
  assert (H : processTimer w = None /\ autoProcess (st w) = false /\
              (List.length (pending w) <= 1)%nat /\
              (pending w = [] <-> isProcessing (st w) = false)).
  { unfold w. clear w. induction es as [| e es IH] using rev_ind.
    - simpl. repeat split; auto.
    - rewrite forallb_app in Hes. apply andb_true_iff in Hes.
      destruct Hes as [Hes He]. simpl in He. rewrite andb_true_r in He.
      apply negb_true_iff in He.
      rewrite run_app. simpl. apply manual_step_invariant; auto. }
  destruct H as (_ & _ & Hl & Hp). split; [exact Hl |].
  destruct (isProcessing (st w)) eqn:Ep.
  - split; [| reflexivity]. intros _ Hn. apply Hp in Hn. discriminate.
  - split; [discriminate |]. intro Hn. exfalso. apply Hn, Hp. reflexivity.
Qed.

(** X12, on a session where the button is clicked three times before the
    first answer. *)
Lemma manual_requests_never_overlap_witness :
  let w := run initialWorld
             [StartCameraOk; ClickProcess; ClickProcess; ClickProcess] in
  (List.length (pending w) <= 1)%nat /\
  (isProcessing (st w) = true <-> pending w <> []).
Proof.
  apply (manual_requests_never_overlap
           [StartCameraOk; ClickProcess; ClickProcess; ClickProcess]).
  reflexivity.
Defined.

(** ** What changes the held result *)

(** X13. The held result and the held instruction change only when the
    camera is stopped or when a pending request is answered with a
    recognised envelope: display refreshes, toggles, clicks, timer ticks,
    camera starts, failed stops and failed or malformed answers leave both
    as they are. *)
Theorem result_changes_only_by_answer_or_stop (w : World) (e : Event) :
  result (st (step w e)) <> result (st w) \/
  navigationInstructions (st (step w e)) <> navigationInstructions (st w) ->
  e = StopCameraOk \/
  exists i closure d r,
    e = Resolve i (ResponseOk d) /\
    nth_error (pending w) i = Some closure /\
    extractResult d = Some r.
Proof.
  rewrite st_step. intro H.
  assert (Hbegin : forall c,
    result (st (processFrame_begin c w)) = result (st w) /\
    navigationInstructions (st (processFrame_begin c w))
      = navigationInstructions (st w)).
  { intro c. unfold processFrame_begin. destruct (negb _); split; reflexivity. }
  destruct e as [| err | | | width | | | checked | checked | | | i o];
    simpl in H.
  - destruct H as [H | H]; exfalso; apply H; reflexivity.
  - destruct H as [H | H]; exfalso; apply H; reflexivity.
  - destruct H as [H | H]; exfalso; apply H; reflexivity.
  - destruct H as [H | H]; exfalso; apply H; reflexivity.
  - destruct (frameTimer w); destruct H as [H | H]; exfalso; apply H;
      reflexivity.
  - left. reflexivity.
  - destruct H as [H | H]; exfalso; apply H; reflexivity.
  - destruct (isCameraRunning (st w)); destruct H as [H | H]; exfalso;
      apply H; reflexivity.
  - destruct H as [H | H]; exfalso; apply H; reflexivity.
  - destruct (_ || _).
    + destruct H as [H | H]; exfalso; apply H; reflexivity.
    + destruct (Hbegin (st w)) as [H1 H2].
      destruct H as [H | H]; exfalso; apply H; assumption.
  - destruct (processTimer w) as [c |].
    + destruct (Hbegin c) as [H1 H2].
      destruct H as [H | H]; exfalso; apply H; assumption.
    + destruct H as [H | H]; exfalso; apply H; reflexivity.
  - destruct (nth_error (pending w) i) as [c |] eqn:En.
    + destruct o as [d | detail | err].
      * destruct (extractResult d) as [r |] eqn:Ex.
        -- right. exists i, c, d, r. repeat split; assumption.
        -- simpl in H. rewrite Ex in H.
           destruct H as [H | H]; exfalso; apply H; reflexivity.
      * destruct H as [H | H]; exfalso; apply H; reflexivity.
      * destruct H as [H | H]; exfalso; apply H; reflexivity.
    + destruct H as [H | H]; exfalso; apply H; reflexivity.
Qed.

(** X13, on the stop that clears a held chair result. *)
Lemma result_changes_only_by_answer_or_stop_witness :
  StopCameraOk = StopCameraOk \/
  exists i closure d r,
    StopCameraOk = Resolve i (ResponseOk d) /\
    nth_error
      (pending (run initialWorld
                  [StartCameraOk; ClickProcess;
                   Resolve 0 (ResponseOk (Scenario.wrapped Scenario.objectsC))]))
      i = Some closure /\
    extractResult d = Some r.
Proof.
  apply (result_changes_only_by_answer_or_stop
           (run initialWorld
              [StartCameraOk; ClickProcess;
               Resolve 0 (ResponseOk (Scenario.wrapped Scenario.objectsC))])
           StopCameraOk).
  left. discriminate.
Defined.

(** ** Display refresh *)

Lemma frames_loaded (widths : list Q) :
  forall (w : World) (count : nat),
    frameTimer w = Some count ->
    let w' := run w (map FrameLoaded widths) in
    frameTimer w' = Some (count + List.length widths)%nat /\
    (widths <> [] ->
     frameCount (st w') = (count + List.length widths)%nat) /\
    result (st w') = result (st w) /\
    navigationInstructions (st w') = navigationInstructions (st w) /\
    isProcessing (st w') = isProcessing (st w) /\
    pending w' = pending w /\
    processTimer w' = processTimer w.
Proof.
  induction widths as [| x widths IH]; intros w count Ht.
  - simpl. rewrite Nat.add_0_r. repeat split; trivial. intro H. congruence.
  - simpl map. simpl run. fold (run (step w (FrameLoaded x)) (map FrameLoaded widths)).
    assert (Hs : step w (FrameLoaded x) =
                 {| st := setFrameCount (S count) (st w);
                    naturalWidth :=
                      match naturalWidth w with
                      | Some _ => Some x | None => None end;
                    frameTimer := Some (S count);
                    processTimer := processTimer w; pending := pending w |}).
    { unfold step. simpl. rewrite Ht. unfold autoProcessEffect. simpl.
      rewrite !Bool.eqb_reflx. reflexivity. }
    assert (Hft : frameTimer (step w (FrameLoaded x)) = Some (S count))
      by (rewrite Hs; reflexivity).
    destruct (IH _ (S count) Hft) as (H1 & H2 & H3 & H4 & H5 & H6 & H7).
    simpl List.length. rewrite <- plus_n_Sm.
    split; [exact H1 |]. split.
    + intros _. destruct widths as [| y widths'].
      * simpl. rewrite Hs. simpl. rewrite Nat.add_0_r. reflexivity.
      * apply H2. discriminate.
    + rewrite H3, H4, H5, H6, H7, Hs. repeat split; reflexivity.
Qed.

(** X14. The frame counter counts the frames of the current stream: after
    [startFrameStreaming] and n loaded frames the timer's count is n and,
    if n > 0, the displayed counter is n; the frames leave the held result
    and instruction, the processing flag, the pending requests and the
    auto-process timer untouched. *)
Theorem frame_counter_counts_frames (w : World) (widths : list Q) :
  let w' := run (step w StartFrameStreaming) (map FrameLoaded widths) in
  frameTimer w' = Some (List.length widths) /\
  (widths <> [] -> frameCount (st w') = List.length widths) /\
  result (st w') = result (st w) /\
  navigationInstructions (st w') = navigationInstructions (st w) /\
  isProcessing (st w') = isProcessing (st w) /\
  pending w' = pending w /\
  processTimer w' = processTimer w.
Proof.
  assert (Hs : step w StartFrameStreaming =
               {| st := st w; naturalWidth := naturalWidth w;
                  frameTimer := Some O; processTimer := processTimer w;
                  pending := pending w |}).
  { unfold step. simpl. unfold autoProcessEffect. simpl.
    rewrite !Bool.eqb_reflx. reflexivity. }
  assert (Hft : frameTimer (step w StartFrameStreaming) = Some O)
    by (rewrite Hs; reflexivity).
  assert (Hst : st (step w StartFrameStreaming) = st w)
    by (rewrite Hs; reflexivity).
  assert (Hpe : pending (step w StartFrameStreaming) = pending w)
    by (rewrite Hs; reflexivity).
  assert (Hpt : processTimer (step w StartFrameStreaming) = processTimer w)
    by (rewrite Hs; reflexivity).
  destruct (frames_loaded widths _ O Hft) as (H1 & H2 & H3 & H4 & H5 & H6 & H7).
  rewrite Hst in H3, H4, H5. rewrite Hpe in H6. rewrite Hpt in H7.
  repeat split; assumption.
Qed.

(** ** Annotated image *)

Lemma toDataUrl_prefixed (s : string) :
  Js.startsWith (toDataUrl s) "data:image" = true.
Proof.
  unfold toDataUrl.
  destruct (Js.startsWith (Js.trim s) "data:image") eqn:E; [exact E |].
  reflexivity.
Qed.

Lemma processFrame_resume_image closure nw o s :
  (forall img, annotatedImage s = Some img ->
               Js.startsWith img "data:image" = true) ->
  forall img,
    annotatedImage (processFrame_resume closure nw o s) = Some img ->
    Js.startsWith img "data:image" = true.
Proof.
  intros H img.
  destruct o as [d | detail | err]; simpl; try discriminate.
  destruct (extractResult d) as [r |]; simpl; [| apply H].
  destruct (findAnnotatedImage d) as [[| c payload] |];
    destruct (detected_objects r) as [[| o1 rest] |]; simpl;
    try discriminate;
    intro E; injection E as <-; apply toDataUrl_prefixed.
Qed.

(** X15. In every reachable state the annotated image, when one is held, is
    a data URL: it starts with "data:image". *)
Theorem annotated_image_is_data_url (w : World) (img : string) :
  reachable w ->
  annotatedImage (st w) = Some img ->
  Js.startsWith img "data:image" = true.
Proof.
  intro Hr. revert img. revert w Hr.
  apply (reachable_ind (fun w => forall img,
           annotatedImage (st w) = Some img ->
           Js.startsWith img "data:image" = true)).
  - discriminate.
  - intros w e IH. rewrite st_step.
    assert (Hbegin : forall c,
      annotatedImage (st (processFrame_begin c w)) = annotatedImage (st w)).
    { intro c. unfold processFrame_begin. destruct (negb _); reflexivity. }
    destruct e as [| err | | | width | | | checked | checked | | | i o];
      try exact IH; simpl.
    + destruct (frameTimer w); exact IH.
    + discriminate.
    + destruct (isCameraRunning (st w)); exact IH.
    + destruct (_ || _); [exact IH |]. rewrite Hbegin. exact IH.
    + destruct (processTimer w) as [c |]; [| exact IH].
      rewrite Hbegin. exact IH.
    + destruct (nth_error (pending w) i) as [c |]; [| exact IH].
      apply processFrame_resume_image, IH.
Qed.

(** X15, after an answer whose image is bare base64 with white space
    around it. *)
Lemma annotated_image_is_data_url_witness :
  Js.startsWith "data:image/jpeg;base64,AAAA" "data:image" = true.
Proof.
  apply (annotated_image_is_data_url
           (run initialWorld
              [StartCameraOk; ClickProcess;
               Resolve 0 (ResponseOk
                 {| data := Some (Scenario.resultOf []);
                    body := {| caption := None; detected_objects := None;
                               guidance := None; model_used := None;
                               fusion_enabled := None; llm_description := None;
                               attention_stats := None;
                               annotated_image_base64 := Some " AAAA ";
                               annotated_image := None |} |})])).
  - eexists. reflexivity.
  - reflexivity.
Defined.

(** ** White space at the ends of a string *)

Section Trim.
Import JsString.

Lemma append_nil_r (s : string) : s ++ "" = s.
Proof. induction s as [| c s IH]; simpl; [| rewrite IH]; reflexivity. Qed.

Lemma append_assoc (a b c : string) : (a ++ b) ++ c = a ++ (b ++ c).
Proof. induction a as [| x a IH]; simpl; [| rewrite IH]; reflexivity. Qed.

Lemma rev_string_acc (s acc : string) :
  Js.rev_string acc s = Js.rev_string "" s ++ acc.
Proof.
  revert acc. induction s as [| c s IH]; intro acc; simpl; [reflexivity |].
  rewrite (IH (String c acc)), (IH (String c "")), append_assoc.
  reflexivity.
Qed.

Lemma rev_string_app (a b : string) :
  Js.rev_string "" (a ++ b) = Js.rev_string "" b ++ Js.rev_string "" a.
Proof.
  induction a as [| c a IH]; simpl.
  - rewrite append_nil_r. reflexivity.
  - rewrite (rev_string_acc (a ++ b) (String c "")),
      (rev_string_acc a (String c "")), IH, append_assoc.
    reflexivity.
Qed.

Lemma rev_string_involutive (s : string) :
  Js.rev_string "" (Js.rev_string "" s) = s.
Proof.
  induction s as [| c s IH]; simpl; [reflexivity |].
  rewrite (rev_string_acc s (String c "")), rev_string_app, IH. reflexivity.
Qed.

Lemma trimStart_clean (s : string) : startsClean (Js.trimStart s) = true.
Proof.
  induction s as [| c s IH]; simpl; [reflexivity |].
  destruct (Js.is_space c) eqn:E; [exact IH |]. simpl. rewrite E. reflexivity.
Qed.

Lemma trimStart_fix (s : string) :
  startsClean s = true -> Js.trimStart s = s.
Proof.
  destruct s as [| c s]; simpl; [reflexivity |].
  destruct (Js.is_space c); [discriminate | reflexivity].
Qed.

Lemma trimStart_suffix (s : string) : exists a, s = a ++ Js.trimStart s.
Proof.
  induction s as [| c s [a IH]]; simpl.
  - exists "". reflexivity.
  - destruct (Js.is_space c).
    + exists (String c a). simpl. rewrite <- IH. reflexivity.
    + exists "". reflexivity.
Qed.

Lemma startsClean_app (a b : string) :
  a <> "" -> startsClean (a ++ b) = startsClean a.
Proof. destruct a; [congruence | reflexivity]. Qed.

Lemma trim_fix (u : string) :
  startsClean u = true -> endsClean u = true -> Js.trim u = u.
Proof.
  intros Hs He. unfold Js.trim.
  rewrite (trimStart_fix u Hs), (trimStart_fix _ He).
  apply rev_string_involutive.
Qed.

Lemma trim_clean (s : string) :
  startsClean (Js.trim s) = true /\ endsClean (Js.trim s) = true.
Proof.
  unfold Js.trim, endsClean.
  set (t := Js.trimStart s).
  assert (Ht : startsClean t = true) by apply trimStart_clean.
  split.
  - destruct (trimStart_suffix (Js.rev_string "" t)) as [a Ha].
    set (v := Js.trimStart (Js.rev_string "" t)) in *.
    assert (Et : t = Js.rev_string "" v ++ Js.rev_string "" a).
    { rewrite <- rev_string_app, <- Ha, rev_string_involutive. reflexivity. }
    destruct (Js.rev_string "" v) as [| c rv] eqn:Ev; [reflexivity |].
    rewrite Et in Ht. exact Ht.
  - rewrite rev_string_involutive. apply trimStart_clean.
Qed.

Lemma trim_idempotent (s : string) : Js.trim (Js.trim s) = Js.trim s.
Proof. destruct (trim_clean s) as [H1 H2]. apply trim_fix; assumption. Qed.

End Trim.

(** X16. Normalising an image payload is idempotent: what [processFrame]
    stores as annotated image is left as it is by a second normalisation; a
    payload that is a data URL already is not prefixed again. *)
Theorem toDataUrl_idempotent (payload : string) :
  toDataUrl (toDataUrl payload) = toDataUrl payload.
Proof.
  destruct (trim_clean payload) as [Hs He].
  destruct (Js.startsWith (Js.trim payload) "data:image") eqn:E.
  - assert (H : toDataUrl payload = Js.trim payload)
      by (unfold toDataUrl; rewrite E; reflexivity).
    rewrite H. unfold toDataUrl. rewrite trim_idempotent, E. reflexivity.
  - assert (H : toDataUrl payload
                = "data:image/jpeg;base64," ++ Js.trim payload)
      by (unfold toDataUrl; rewrite E; reflexivity).
    rewrite H. set (t := Js.trim payload) in *.
    assert (Hfix : Js.trim ("data:image/jpeg;base64," ++ t)
                   = "data:image/jpeg;base64," ++ t).
    { apply trim_fix; [reflexivity |].
      unfold JsString.endsClean. rewrite rev_string_app.
      destruct (Js.rev_string "" t) as [| c rt] eqn:Er; [reflexivity |].
      unfold JsString.endsClean in He. rewrite Er in He. exact He. }
    unfold toDataUrl. rewrite Hfix. reflexivity.
Qed.

Lemma findAnnotatedImage_truthy (d : ApiResponse) (img : string) :
  findAnnotatedImage d = Some img -> Js.truthy_string (Some img) = true.
Proof.
  unfold findAnnotatedImage.
  destruct (Js.truthy_string (annotated_image_base64 (body d))) eqn:E1;
    [intro H; rewrite <- H; exact E1 |].
  destruct (Js.truthy_string
              match data d with
              | Some r => annotated_image_base64 r | None => None end) eqn:E2;
    [intro H; rewrite <- H; exact E2 |].
  destruct (Js.truthy_string (annotated_image (body d))) eqn:E3;
    [intro H; rewrite <- H; exact E3 |].
  destruct (Js.truthy_string
              match data d with
              | Some r => annotated_image r | None => None end) eqn:E4;
    [intro H; rewrite <- H; exact E4 | discriminate].
Qed.

Lemma findAnnotatedImage_none (d : ApiResponse) :
  findAnnotatedImage d = None <->
  Js.truthy_string (annotated_image_base64 (body d)) = false /\
  Js.truthy_string (match data d with
                    | Some r => annotated_image_base64 r | None => None end)
    = false /\
  Js.truthy_string (annotated_image (body d)) = false /\
  Js.truthy_string (match data d with
                    | Some r => annotated_image r | None => None end) = false.
Proof.
  split.
  - intro H. assert (Ht := findAnnotatedImage_truthy d). revert H Ht.
    unfold findAnnotatedImage.
    destruct (Js.truthy_string (annotated_image_base64 (body d))) eqn:E1.
    { intro H. rewrite H in E1. discriminate E1. }
    destruct (Js.truthy_string
                match data d with
                | Some r => annotated_image_base64 r | None => None end) eqn:E2.
    { intro H. rewrite H in E2. discriminate E2. }
    destruct (Js.truthy_string (annotated_image (body d))) eqn:E3.
    { intro H. rewrite H in E3. discriminate E3. }
    destruct (Js.truthy_string
                match data d with
                | Some r => annotated_image r | None => None end) eqn:E4.
    { intro H. rewrite H in E4. discriminate E4. }
    intros _ _. repeat split.
  - intros (E1 & E2 & E3 & E4). unfold findAnnotatedImage.
    rewrite E1, E2, E3, E4. reflexivity.
Qed.

Lemma processFrame_resume_annotated closure nw d r s :
  extractResult d = Some r ->
  annotatedImage (processFrame_resume closure nw (ResponseOk d) s) =
  option_map toDataUrl (findAnnotatedImage d).
Proof.
  intro Hx. simpl. rewrite Hx.
  destruct (findAnnotatedImage d) as [img |] eqn:Ef.
  - assert (Ht := findAnnotatedImage_truthy d img Ef).
    destruct img as [| c img]; [discriminate Ht |].
    destruct (detected_objects r) as [[| o1 rest] |]; reflexivity.
  - destruct (detected_objects r) as [[| o1 rest] |]; reflexivity.
Qed.

(** X17. After an answer with a recognised envelope an annotated image is
    held exactly when the answer carries a non-empty payload under
    [annotated_image_base64] or [annotated_image], at the top level or
    inside [data]; the top-level [annotated_image_base64] is preferred to
    the three others. *)
Theorem annotated_image_held_iff_payload (w : World) (i : nat)
    (closure : State) (d : ApiResponse) (r : ProcessingResult) :
  nth_error (pending w) i = Some closure ->
  extractResult d = Some r ->
  let w' := step w (Resolve i (ResponseOk d)) in
  let nested (key : ProcessingResult -> option string) :=
    match data d with Some inner => key inner | None => None end in
  (annotatedImage (st w') = None <->
   Js.truthy_string (annotated_image_base64 (body d)) = false /\
   Js.truthy_string (nested annotated_image_base64) = false /\
   Js.truthy_string (annotated_image (body d)) = false /\
   Js.truthy_string (nested annotated_image) = false) /\
  (forall payload,
     annotated_image_base64 (body d) = Some payload ->
     payload <> "" ->
     annotatedImage (st w') = Some (toDataUrl payload)).
Proof.
  intros Hp Hx w' nested. unfold w', nested. clear w' nested. cbv beta.
  rewrite (st_step_resolve _ _ _ _ Hp),
    (processFrame_resume_annotated _ _ _ _ _ Hx).
  split.
  - rewrite <- findAnnotatedImage_none.
    destruct (findAnnotatedImage d); simpl; split; congruence.
  - intros payload Hpay Hne. unfold findAnnotatedImage. rewrite Hpay.
    destruct payload as [| c payload]; [congruence | reflexivity].
Qed.

(** X17, on an answer with a top-level payload and another inside [data]. *)
Lemma annotated_image_held_iff_payload_witness :
  let inner := {| caption := Some "a room"; detected_objects := Some [];
                  guidance := None; model_used := None;
                  fusion_enabled := None; llm_description := None;
                  attention_stats := None;
                  annotated_image_base64 := Some "BBBB";
                  annotated_image := None |} in
  let d := {| data := Some inner;
              body := {| caption := None; detected_objects := None;
                         guidance := None; model_used := None;
                         fusion_enabled := None; llm_description := None;
                         attention_stats := None;
                         annotated_image_base64 := Some "AAAA";
                         annotated_image := None |} |} in
  annotatedImage
    (st (step (run initialWorld [StartCameraOk; ClickProcess])
           (Resolve 0 (ResponseOk d))))
  = Some (toDataUrl "AAAA").
Proof.
  intros inner d.
  apply (annotated_image_held_iff_payload
           (run initialWorld [StartCameraOk; ClickProcess]) 0
           (st (run initialWorld [StartCameraOk])) d inner);
    [reflexivity | reflexivity | reflexivity | discriminate].
Defined.

(** ** [parseGuidance] *)

Section Guidance.
Import JsString.

Lemma split_from_nonempty (sep : string) (s : string) :
  forall skip, split_from sep skip s <> [].
Proof.
  induction s as [| c s IH]; intro skip; cbn [split_from]; [discriminate |].
  destruct skip as [| k]; [| apply IH].
  destruct (String.prefix sep (String c s)); [discriminate |].
  destruct (split_from sep 0 s); discriminate.
Qed.

Lemma split_from_length (sep : string) (s : string) :
  forall skip, (1 <= List.length (split_from sep skip s))%nat.
Proof.
  intro skip. assert (H := split_from_nonempty sep s skip).
  destruct (split_from sep skip s); [congruence | simpl; lia].
Qed.

(** A part that includes the key splits into at least two pieces. *)
Lemma includes_split (a : ascii) (sep' s : string) :
  includes (String a sep') s = true ->
  (2 <= List.length (split (String a sep') s))%nat.
Proof.
  unfold split. induction s as [| c s IH]; [discriminate |].
  intro H. cbn [includes] in H. cbn [split_from].
  destruct (String.prefix (String a sep') (String c s)) eqn:E.
  - assert (Hl := split_from_length (String a sep') s
                    (String.length (String a sep') - 1)).
    cbn [List.length]. lia.
  - simpl orb in H. specialize (IH H).
    destruct (split_from (String a sep') 0 s); cbn [List.length] in *; lia.
Qed.

Lemma contentAfter_defined (a : ascii) (key' part : string) :
  includes (String a key') part = true ->
  exists content, contentAfter (String a key') part = Some content.
Proof.
  intro H. unfold contentAfter.
  assert (Hl := includes_split a key' part H).
  destruct (split (String a key') part) as [| p0 [| after rest]];
    simpl in Hl; try lia.
  simpl. assert (Hn := split_from_nonempty "." after 0). unfold split.
  destruct (split_from "." 0 after) as [| first others]; [congruence |].
  simpl. eexists. reflexivity.
Qed.

Lemma parseGuidance_part_defined (zones : GuidanceZones) (part : string) :
  exists zones', parseGuidance_part zones part = Some zones'.
Proof.
  unfold parseGuidance_part.
  destruct (includes "left:" part) eqn:El.
  { destruct (contentAfter_defined _ _ _ El) as [c ->]. eexists; reflexivity. }
  destruct (includes "front:" part) eqn:Ef.
  { destruct (contentAfter_defined _ _ _ Ef) as [c ->]. eexists; reflexivity. }
  destruct (includes "right:" part) eqn:Er.
  { destruct (contentAfter_defined _ _ _ Er) as [c ->]. eexists; reflexivity. }
  eexists; reflexivity.
Qed.

Lemma parseGuidance_parts_defined (parts : list string) :
  forall zones, exists zones', parseGuidance_parts zones parts = Some zones'.
Proof.
  induction parts as [| part parts IH]; intro zones; simpl.
  - eexists; reflexivity.
  - destruct (parseGuidance_part_defined zones part) as [z ->]. apply IH.
Qed.

End Guidance.

(** X18. [parseGuidance] never fails: for every guidance text each index
    into a split it takes is defined, and the three lists are returned. *)
Theorem parseGuidance_never_throws (guidance : string) :
  exists zones, parseGuidance guidance = Some zones.
Proof. apply parseGuidance_parts_defined. Qed.

Section GuidanceItems.
Import JsString.

Lemma filedUnder_exclusive (part : string) :
  (List.length (filter (filedUnder zone_left) [part])
   + List.length (filter (filedUnder zone_front) [part])
   + List.length (filter (filedUnder zone_right) [part]) <= 1)%nat.
Proof.
  unfold filedUnder. simpl. destruct (partZone part) as [[| |] |]; simpl; lia.
Qed.

Lemma filed_at_most_once (parts : list string) :
  (List.length (filter (filedUnder zone_left) parts)
   + List.length (filter (filedUnder zone_front) parts)
   + List.length (filter (filedUnder zone_right) parts)
   <= List.length parts)%nat.
Proof.
  induction parts as [| part parts IH]; [simpl; lia |].
  assert (H := filedUnder_exclusive part). simpl in H. simpl.
  destruct (filedUnder zone_left part), (filedUnder zone_front part),
    (filedUnder zone_right part); simpl in *; lia.
Qed.

Lemma parseGuidance_part_counts (zones zones' : GuidanceZones) (part : string) :
  parseGuidance_part zones part = Some zones' ->
  List.length (guidance_left zones') =
    (List.length (guidance_left zones)
     + List.length (filter (filedUnder zone_left) [part]))%nat /\
  List.length (guidance_front zones') =
    (List.length (guidance_front zones)
     + List.length (filter (filedUnder zone_front) [part]))%nat /\
  List.length (guidance_right zones') =
    (List.length (guidance_right zones)
     + List.length (filter (filedUnder zone_right) [part]))%nat.
Proof.
  unfold parseGuidance_part, filedUnder, partZone. simpl.
  destruct (includes "left:" part).
  { destruct (contentAfter "left:" part); [| discriminate].
    intro H. injection H as <-. simpl. rewrite length_app. simpl. lia. }
  destruct (includes "front:" part).
  { destruct (contentAfter "front:" part); [| discriminate].
    intro H. injection H as <-. simpl. rewrite length_app. simpl. lia. }
  destruct (includes "right:" part).
  { destruct (contentAfter "right:" part); [| discriminate].
    intro H. injection H as <-. simpl. rewrite length_app. simpl. lia. }
  intro H. injection H as <-. simpl. lia.
Qed.

Lemma parseGuidance_parts_counts (parts : list string) :
  forall zones zones',
    parseGuidance_parts zones parts = Some zones' ->
    List.length (guidance_left zones') =
      (List.length (guidance_left zones)
       + List.length (filter (filedUnder zone_left) parts))%nat /\
    List.length (guidance_front zones') =
      (List.length (guidance_front zones)
       + List.length (filter (filedUnder zone_front) parts))%nat /\
    List.length (guidance_right zones') =
      (List.length (guidance_right zones)
       + List.length (filter (filedUnder zone_right) parts))%nat.
Proof.
  induction parts as [| part parts IH]; intros zones zones' H.
  - simpl in H. injection H as <-. simpl. lia.
  - cbn [parseGuidance_parts] in H.
    destruct (parseGuidance_part zones part) as [z1 |] eqn:E1;
      [| discriminate].
    destruct (parseGuidance_part_counts _ _ _ E1) as (A1 & A2 & A3).
    destruct (IH _ _ H) as (B1 & B2 & B3).
    rewrite B1, B2, B3, A1, A2, A3.
    change (part :: parts) with ([part] ++ parts)%list.
    rewrite !filter_app, !length_app. lia.
Qed.

End GuidanceItems.

(** X19. [parseGuidance] files every part of the guidance text (the pieces
    between the occurrences of "To your ") under at most one zone, "left:"
    taking precedence over "front:" and "front:" over "right:": each list
    has one item per part filed under its zone, so the three lists hold at
    most as many items as there are parts. *)
Theorem parseGuidance_files_each_part_once (guidance : string)
    (zones : GuidanceZones) :
  parseGuidance guidance = Some zones ->
  let parts := JsString.split "To your " guidance in
  List.length (guidance_left zones)
    = List.length (filter (filedUnder zone_left) parts) /\
  List.length (guidance_front zones)
    = List.length (filter (filedUnder zone_front) parts) /\
  List.length (guidance_right zones)
    = List.length (filter (filedUnder zone_right) parts) /\
  (List.length (guidance_left zones) + List.length (guidance_front zones)
   + List.length (guidance_right zones) <= List.length parts)%nat.
Proof.
  intros H parts.
  destruct (parseGuidance_parts_counts _ _ _ H) as (H1 & H2 & H3).
  simpl in H1, H2, H3. fold parts in H1, H2, H3.
  rewrite H1, H2, H3. repeat split.
  apply filed_at_most_once.
Qed.

(** X19, on a guidance text whose front part mentions "left:" too: that
    part is filed under LEFT. *)
Lemma parseGuidance_files_each_part_once_witness :
  let guidance :=
    "To your front: a door, left: a chair. To your right: a table." in
  let zones := {| guidance_left := ["a chair"]; guidance_front := [];
                  guidance_right := ["a table"] |} in
  let parts := JsString.split "To your " guidance in
  List.length (guidance_left zones)
    = List.length (filter (filedUnder zone_left) parts) /\
  List.length (guidance_front zones)
    = List.length (filter (filedUnder zone_front) parts) /\
  List.length (guidance_right zones)
    = List.length (filter (filedUnder zone_right) parts) /\
  (List.length (guidance_left zones) + List.length (guidance_front zones)
   + List.length (guidance_right zones) <= List.length parts)%nat.
Proof.
  intros guidance zones.
  apply (parseGuidance_files_each_part_once guidance zones).
  reflexivity.
Defined.

Section FullStops.
Import JsString.

Lemma includes_dot_cons (c : ascii) (s : string) :
  includes "." (String c s) =
  (if ascii_dec "."%char c then true else false) || includes "." s.
Proof.
  cbn [includes]. f_equal. cbn [String.prefix].
  destruct (ascii_dec "."%char c); [destruct s |]; reflexivity.
Qed.

Lemma includes_dot_app (a b : string) :
  includes "." (a ++ b) = includes "." a || includes "." b.
Proof.
  induction a as [| c a IH].
  - reflexivity.
  - simpl append. rewrite !includes_dot_cons, IH, orb_assoc. reflexivity.
Qed.

Lemma includes_dot_rev (s : string) :
  includes "." (Js.rev_string "" s) = includes "." s.
Proof.
  induction s as [| c s IH]; [reflexivity |].
  simpl Js.rev_string. rewrite (rev_string_acc s (String c "")).
  rewrite includes_dot_app, IH, !includes_dot_cons.
  destruct (ascii_dec "."%char c); destruct (includes "." s); reflexivity.
Qed.

Lemma includes_dot_trimStart (s : string) :
  includes "." s = false -> includes "." (Js.trimStart s) = false.
Proof.
  destruct (trimStart_suffix s) as [a Ha]. intro H.
  rewrite Ha, includes_dot_app in H. apply orb_false_iff in H. apply H.
Qed.

Lemma includes_dot_trim (s : string) :
  includes "." s = false -> includes "." (Js.trim s) = false.
Proof.
  intro H. unfold Js.trim.
  rewrite includes_dot_rev. apply includes_dot_trimStart.
  rewrite includes_dot_rev. apply includes_dot_trimStart, H.
Qed.

Lemma split_dot_first (s : string) :
  forall first,
    nth_error (split "." s) 0 = Some first -> includes "." first = false.
Proof.
  unfold split. induction s as [| c s IH]; intros first H.
  - simpl in H. injection H as <-. reflexivity.
  - cbn [split_from] in H.
    destruct (String.prefix "." (String c s)) eqn:E.
    + simpl in H. injection H as <-. reflexivity.
    + assert (Hc : (if ascii_dec "."%char c then true else false) = false).
      { cbn [String.prefix] in E.
        destruct (ascii_dec "."%char c); [| reflexivity].
        destruct s; discriminate E. }
      destruct (split_from "." 0 s) as [| f others] eqn:Es.
      * simpl in H. injection H as <-. rewrite includes_dot_cons, Hc.
        reflexivity.
      * simpl in H. injection H as <-. rewrite includes_dot_cons, Hc.
        apply IH. reflexivity.
Qed.

Lemma contentAfter_clean (key part content : string) :
  contentAfter key part = Some content ->
  includes "." content = false /\ Js.trim content = content.
Proof.
  unfold contentAfter.
  destruct (nth_error (split key part) 1) as [after |]; [| discriminate].
  destruct (nth_error (split "." after) 0) as [first |] eqn:E;
    [| discriminate].
  intro H. injection H as <-. split.
  - apply includes_dot_trim, (split_dot_first after first E).
  - apply trim_idempotent.
Qed.

Lemma parseGuidance_part_clean (P : string -> Prop)
    (zones zones' : GuidanceZones) (part : string) :
  (forall key content, contentAfter key part = Some content -> P content) ->
  parseGuidance_part zones part = Some zones' ->
  (forall item, In item (guidance_left zones ++ guidance_front zones
                         ++ guidance_right zones)%list -> P item) ->
  forall item, In item (guidance_left zones' ++ guidance_front zones'
                        ++ guidance_right zones')%list -> P item.
Proof.
  intros Hc. unfold parseGuidance_part.
  destruct (includes "left:" part).
  { destruct (contentAfter "left:" part) as [c |] eqn:E; [| discriminate].
    intro H. injection H as <-. simpl. intros Hz item Hin.
    rewrite !in_app_iff in Hin. simpl in Hin.
    destruct Hin as [[Hin | [<- | []]] | Hin];
      [apply Hz; rewrite !in_app_iff; tauto | apply (Hc _ _ E) |
       apply Hz; rewrite !in_app_iff; tauto]. }
  destruct (includes "front:" part).
  { destruct (contentAfter "front:" part) as [c |] eqn:E; [| discriminate].
    intro H. injection H as <-. simpl. intros Hz item Hin.
    rewrite !in_app_iff in Hin. simpl in Hin.
    destruct Hin as [Hin | [[Hin | [<- | []]] | Hin]];
      [apply Hz; rewrite !in_app_iff; tauto |
       apply Hz; rewrite !in_app_iff; tauto | apply (Hc _ _ E) |
       apply Hz; rewrite !in_app_iff; tauto]. }
  destruct (includes "right:" part).
  { destruct (contentAfter "right:" part) as [c |] eqn:E; [| discriminate].
    intro H. injection H as <-. simpl. intros Hz item Hin.
    rewrite !in_app_iff in Hin. simpl in Hin.
    destruct Hin as [Hin | [Hin | [Hin | [<- | []]]]];
      [apply Hz; rewrite !in_app_iff; tauto |
       apply Hz; rewrite !in_app_iff; tauto |
       apply Hz; rewrite !in_app_iff; tauto | apply (Hc _ _ E)]. }
  intro H. injection H as <-. trivial.
Qed.

Lemma parseGuidance_parts_clean (parts : list string) :
  forall zones zones',
    parseGuidance_parts zones parts = Some zones' ->
    (forall item, In item (guidance_left zones ++ guidance_front zones
                           ++ guidance_right zones)%list ->
       includes "." item = false /\ Js.trim item = item) ->
    forall item, In item (guidance_left zones' ++ guidance_front zones'
                          ++ guidance_right zones')%list ->
      includes "." item = false /\ Js.trim item = item.
Proof.
  induction parts as [| part parts IH]; intros zones zones' H Hz.
  - simpl in H. injection H as <-. exact Hz.
  - cbn [parseGuidance_parts] in H.
    destruct (parseGuidance_part zones part) as [z1 |] eqn:E1;
      [| discriminate].
    apply (IH z1 zones' H).
    apply (parseGuidance_part_clean _ zones z1 part); trivial.
    intros key content. apply contentAfter_clean.
Qed.

End FullStops.

(** X20. Every item [parseGuidance] returns, in any of the three lists,
    contains no full stop and has no white space at either end (trimming it
    again changes nothing). *)
Theorem parseGuidance_items_are_clean (guidance : string)
    (zones : GuidanceZones) (item : string) :
  parseGuidance guidance = Some zones ->
  In item (guidance_left zones ++ guidance_front zones
           ++ guidance_right zones)%list ->
  JsString.includes "." item = false /\ Js.trim item = item.
Proof.
  intros H. apply (parseGuidance_parts_clean _ _ _ H).
  intros x [].
Qed.

(** X20, on the item of the right zone of a two-sentence guidance text. *)
Lemma parseGuidance_items_are_clean_witness :
  JsString.includes "." "a table" = false /\ Js.trim "a table" = "a table".
Proof.
  apply (parseGuidance_items_are_clean
           "To your front: a door. To your right:  a table . Watch out."
           {| guidance_left := []; guidance_front := ["a door"];
              guidance_right := ["a table"] |} "a table").
  - reflexivity.
  - simpl. right. left. reflexivity.
Defined.

(** ** Overlay *)

Section OverlayFacts.
Local Open Scope Q_scope.

Lemma num_or_pos (v d : Q) : 0 < v -> Js.num_or (Some v) d = v.
Proof.
  intro H. unfold Js.num_or. destruct (Qeq_bool v 0) eqn:E; trivial.
  apply Qeq_bool_iff in E. lra.
Qed.


End OverlayFacts.



Section OverlayDrawing.
Variable measureText : string -> Q.
Variable toFixed0 : Q -> string.

Lemma strokeColors_app (a b : list CanvasOp) :
  strokeColors (a ++ b) = (strokeColors a ++ strokeColors b)%list.
Proof. apply flat_map_app. Qed.

Lemma strokeColors_boxes (cw ch : Q) (el : ImageElement)
    (objs : list DetectedObject) :
  strokeColors (flat_map (drawObject measureText toFixed0 cw ch el) objs)
  = map (boxColor el) objs.
Proof.
  induction objs as [| obj objs IH]; [reflexivity |].
  cbn [flat_map map]. rewrite strokeColors_app, IH.
  unfold drawObject. destruct (scaledBox cw ch el obj) as [[[x y] w] h].
  reflexivity.
Qed.

Lemma strokeColors_if_fill (b : bool) (op : CanvasOp) :
  isFill op = true -> strokeColors (if b then [] else [op]) = [].
Proof. destruct b, op; simpl; congruence. Qed.

(** X22. With both toggles on, the overlay strokes exactly one rectangle
    per detected object of the captured result, in detection order, each in
    the colour of the object's zone; the first drawing call clears the
    whole canvas, which takes the displayed size of the image. *)
Theorem overlay_strokes_one_box_per_object (el : ImageElement)
    (r : ProcessingResult) (objs : list DetectedObject) :
  detected_objects r = Some objs ->
  exists ops,
    drawDirectionOverlay measureText toFixed0 true (Some el) true true (Some r)
    = Some (elWidth el, elHeight el,
            ClearRect 0 0 (elWidth el) (elHeight el) :: ops) /\
    strokeColors ops = map (boxColor el) objs.
Proof.
  intro Ho. unfold drawDirectionOverlay. rewrite Ho. cbn [negb orb].
  eexists. split; [reflexivity |].
  rewrite !strokeColors_app, strokeColors_boxes.
  repeat (rewrite strokeColors_if_fill; [| reflexivity]).
  set (R := is_empty (getObjectsInZone (Some r) (Some (elNaturalWidth el))
                        zone_right)).
  set (F := is_empty (getObjectsInZone (Some r) (Some (elNaturalWidth el))
                        zone_front)).
  set (L := is_empty (getObjectsInZone (Some r) (Some (elNaturalWidth el))
                        zone_left)).
  destruct R, F, L; simpl; rewrite ?app_nil_r; reflexivity.
Qed.

(** X23. The overlay touches the canvas only when a canvas and an image are
    mounted and the direction overlay is switched on; and it draws more
    than the clearing only when the bounding boxes are switched on as well
    and the captured result has a detected object. *)
Theorem overlay_needs_both_toggles (canvas : bool)
    (img : option ImageElement) (showDirections showBoundingBoxes : bool)
    (result : option ProcessingResult) :
  let drawn := drawDirectionOverlay measureText toFixed0 canvas img
                 showDirections showBoundingBoxes result in
  (drawn = None <-> canvas = false \/ img = None \/ showDirections = false) /\
  (forall w h ops,
     drawn = Some (w, h, ops) ->
     ops <> [ClearRect 0 0 w h] ->
     showBoundingBoxes = true /\ hasObjects result = true).
Proof.
  unfold drawDirectionOverlay. split.
  - destruct img as [el |]; [| split; auto].
    destruct canvas, showDirections; simpl.
    + destruct result as [r |]; [destruct (detected_objects r) |];
        [destruct showBoundingBoxes | |]; simpl;
        (split; [discriminate | intros [H | [H | H]]; discriminate H]).
    + split; auto.
    + split; auto.
    + split; auto.
  - intros w h ops.
    destruct img as [el |]; [| discriminate].
    destruct (negb canvas || negb showDirections); [discriminate |].
    destruct result as [r |].
    2:{ intro H. injection H as <- <- <-. congruence. }
    destruct (detected_objects r) as [objs |] eqn:Eo.
    2:{ intro H. injection H as <- <- <-. congruence. }
    destruct showBoundingBoxes.
    2:{ intro H. injection H as <- <- <-. congruence. }
    destruct objs as [| o1 rest].
    { unfold getObjectsInZone. rewrite Eo. simpl.
      intro H. injection H as <- <- <-. congruence. }
    intros _ _. split; [reflexivity |]. simpl. rewrite Eo. reflexivity.
Qed.

End OverlayDrawing.

(** X22, on the three objects of scenario D. *)
Lemma overlay_strokes_one_box_per_object_witness :
  let el := {| elWidth := 320; elHeight := 240;
               elNaturalWidth := 640; elNaturalHeight := 480 |} in
  exists ops,
    drawDirectionOverlay (fun _ => 40%Q) (fun _ => "90") true (Some el) true
      true (Some (Scenario.resultOf Scenario.objectsD))
    = Some (elWidth el, elHeight el,
            ClearRect 0 0 (elWidth el) (elHeight el) :: ops) /\
    strokeColors ops = map (boxColor el) Scenario.objectsD.
Proof.
  intro el.
  apply (overlay_strokes_one_box_per_object (fun _ => 40%Q) (fun _ => "90")
           el (Scenario.resultOf Scenario.objectsD) Scenario.objectsD).
  reflexivity.
Defined.
